(** * YC2Data: a shallow embedding of the extractor and its configuration

    The development follows the TypeScript sources:
    - [config.ts]   : the zod schema [configSchema] and its [parse];
    - the extractor : class [YCDataExtractor] with [login],
      [fetchCompanyIds], [fetchCompanyDetails], [formatCompanyData] and
      [extractData].

    JavaScript numbers that the program only uses as integers are values
    of [Z]; the one place where a non-integer arises ([0 / 0] in the page
    computation) is made explicit.  Network calls and timers are recorded
    in a chronological trace of events; the replies of the outside world
    are parameters of the model. *)

From Stdlib Require Import ZArith List String Ascii Bool Lia.
From Stdlib Require Import DecimalString.
From Equations Require Import Equations.
Import ListNotations.

Local Open Scope Z_scope.

(** ** JavaScript values and operators used by the program *)

Module JS.

(** A property of a JSON object: missing, [null], or holding a value. *)
Inductive opt (A : Type) : Type :=
| undefined
| null
| val (a : A).
Arguments undefined {A}.
Arguments null {A}.
Arguments val {A} a.

(** [x || d] where [x] is a string property: the empty string is falsy. *)
Definition or_string (x : opt string) (d : string) : string :=
  match x with
  | val EmptyString => d
  | val s => s
  | _ => d
  end.

(** [x || d] where [x] is an array property: every array is truthy. *)
Definition or_list {A : Type} (x : opt (list A)) (d : list A) : list A :=
  match x with
  | val l => l
  | _ => d
  end.

(** [Array.prototype.slice(start, end)] for integer arguments. *)
Definition slice {A : Type} (l : list A) (start end_ : Z) : list A :=
  let len := Z.of_nat (List.length l) in
  let k := if start <? 0 then Z.max (len + start) 0 else Z.min start len in
  let final := if end_ <? 0 then Z.max (len + end_) 0 else Z.min end_ len in
  firstn (Z.to_nat (final - k)) (skipn (Z.to_nat k) l).

(** [Array.prototype.join(sep)] on strings. *)
Definition join (sep : string) (l : list string) : string :=
  String.concat sep l.

(** [s.split(c)[0]]: the part of [s] before the first [c]. *)
Fixpoint split_head (c : ascii) (s : string) : string :=
  match s with
  | EmptyString => EmptyString
  | String a rest =>
      if Ascii.eqb a c then EmptyString else String a (split_head c rest)
  end.

(** An [Error] object, and its conversion to a string by a template
    literal ([Error.prototype.toString]). *)
Record Error : Type := mkError { err_name : string; err_message : string }.

Definition Error_new (msg : string) : Error :=
  {| err_name := "Error"; err_message := msg |}.

(** A [TypeError] raised by the engine. *)
Definition TypeError (msg : string) : Error :=
  {| err_name := "TypeError"; err_message := msg |}.

Definition Error_toString (e : Error) : string :=
  match err_name e, err_message e with
  | EmptyString, m => m
  | n, EmptyString => n
  | n, m => (n ++ ": " ++ m)%string
  end.

(** The numbers [Math.ceil(a / b)] can yield for integers [a] and [b]:
    an integer, [NaN] (for [0 / 0]) or an infinity (for a non-zero
    dividend over zero).  The quotient is taken exactly; for operands
    of the size the program handles the double-precision quotient has
    the same ceiling. *)
Inductive num : Type :=
| Int (z : Z)
| NaN
| Infinity (negative : bool).

Definition ceil_div (a b : Z) : num :=
  if b =? 0 then
    (if a =? 0 then NaN else Infinity (a <? 0))
  else Int (- ((- a) / b)).

(** [i < n] for an integer [i]; any comparison with [NaN] is false. *)
Definition ltb (i : Z) (n : num) : bool :=
  match n with
  | Int z => i <? z
  | NaN => false
  | Infinity negative => negb negative
  end.

(** [n - 1]. *)
Definition pred (n : num) : num :=
  match n with
  | Int z => Int (z - 1)
  | other => other
  end.

End JS.

Import JS.

(** ** The data model (interfaces of the extractor) *)

Record AlgoliaHit : Type := mkHit { company_id : Z }.

Record AlgoliaResult : Type := mkAlgoliaResult {
  hits : opt (list AlgoliaHit);
  nbHits : Z
}.

Record AlgoliaResponse : Type := mkAlgoliaResponse {
  results : list AlgoliaResult
}.

Record Job : Type := mkJob {
  job_id : Z;
  title : opt string;
  department : opt string;
  location : opt string;
  salary_min : opt Z;
  salary_max : opt Z;
  equity_min : opt Z;
  equity_max : opt Z;
  pretty_min_experience : opt string;
  pretty_job_type : opt string;
  pretty_role : opt string;
  pretty_salary_range : opt string
}.

Record Founder : Type := mkFounder {
  full_name : opt string;
  linkedin : opt string;
  founder_bio : opt string
}.

(** The interface declares [name] and [jobs] as always present; the
    formatter nevertheless guards both with [||], so the payload as it
    arrives from the server is modelled with every property optional. *)
Record Company : Type := mkCompany {
  id : Z;
  name : opt string;
  website : opt string;
  description : opt string;
  jobs : opt (list Job);
  team_size : opt Z;
  founders : opt (list Founder);
  primary_vertical : opt string;
  website_display : opt string;
  country : opt string
}.

Record CompanyResponse : Type := mkCompanyResponse {
  companies : opt (list Company)
}.

Record OutputJob : Type := mkOutputJob {
  oj_name : string;
  oj_pretty_min_experience : opt string;
  oj_pretty_job_type : opt string;
  oj_pretty_role : opt string;
  oj_pretty_salary_range : opt string
}.

Record OutputCompany : Type := mkOutputCompany {
  oc_name : string;
  oc_website : string;
  oc_team_size : opt Z;
  oc_founders : opt (list Founder);
  oc_primary_vertical : opt string;
  oc_website_display : opt string;
  oc_country : opt string;
  oc_jobs : list OutputJob
}.

(** ** [formatCompanyData] *)

Definition formatJob (job : Job) : OutputJob :=
  {| oj_name := or_string (title job) EmptyString;
     oj_pretty_min_experience := pretty_min_experience job;
     oj_pretty_job_type := pretty_job_type job;
     oj_pretty_role := pretty_role job;
     oj_pretty_salary_range := pretty_salary_range job |}.

Definition formatCompany (company : Company) : OutputCompany :=
  {| oc_name := or_string (name company) EmptyString;
     oc_website := or_string (website company) EmptyString;
     oc_team_size := team_size company;
     oc_founders := val (or_list (founders company) []);
     oc_primary_vertical := primary_vertical company;
     oc_website_display := website_display company;
     oc_country := country company;
     oc_jobs := map formatJob (or_list (jobs company) []) |}.

Definition formatCompanyData (companies : list Company) : list OutputCompany :=
  map formatCompany companies.

(** ** The outside world, events and the extractor's state *)

(** What the program does to the outside world, in chronological order:
    the five kinds of HTTP request it sends and the timers it awaits. *)
Inductive Event : Type :=
| EvGetLoginPage
| EvPostSignIn (x_csrf_token cookie : string)
| EvGetWaas (cookie : string)
| EvSearch (page hitsPerPage : Z)
| EvFetch (ids : list Z) (x_csrf_token cookie : string)
| EvSleep (ms : Z).

Inductive Result (A : Type) : Type :=
| Ok (a : A)
| Throw (e : Error).
Arguments Ok {A} a.
Arguments Throw {A} e.

Record AxiosResponse (D : Type) : Type := mkResponse {
  status : Z;
  set_cookie : opt (list string);
  data : D
}.
Arguments mkResponse {D}.
Arguments status {D}.
Arguments set_cookie {D}.
Arguments data {D}.

(** The [data] of an answer as the code receives it.  axios parses the
    body of an answer as JSON whenever it can, so [data] need not have
    the type the code assumes.  [Expected d] is data on which the
    accesses of the code evaluate as on [d].  [Unexpected msg] is any
    other data: the first access the code makes to it (calling [match]
    on data that is not a string, reading a property of [null] or
    [undefined], indexing a missing array) throws a [TypeError] whose
    message, which depends on the engine, is [msg]. *)
Inductive Payload (D : Type) : Type :=
| Expected (d : D)
| Unexpected (type_error : string).
Arguments Expected {D} d.
Arguments Unexpected {D} type_error.

(** The servers.  Each reply may depend on everything that happened
    before it: the argument is the trace up to and including the request
    being answered.  [Throw] stands for a request that did not complete
    (network failure, timeout). *)
Record World : Type := mkWorld {
  login_page_reply : list Event -> Result (AxiosResponse (Payload string));
  sign_in_reply : list Event -> Result (AxiosResponse (Payload string));
  waas_reply : list Event -> Result (AxiosResponse (Payload string));
  algolia_reply :
    list Event -> Result (AxiosResponse (Payload AlgoliaResponse));
  fetch_reply :
    list Event -> Result (AxiosResponse (Payload CompanyResponse))
}.

Record Session : Type := mkSession {
  cookies : string;
  csrfToken : string
}.

(** The field [this.session] of the extractor, and the trace so far. *)
Record State : Type := mkState {
  session : option Session;
  trace : list Event
}.

Definition initial : State := {| session := None; trace := [] |}.

(** *** A state-and-exception monad for [async] methods *)

Definition M (A : Type) : Type := State -> Result A * State.

Definition ret {A : Type} (a : A) : M A := fun st => (Ok a, st).

Definition bind {A B : Type} (m : M A) (k : A -> M B) : M B :=
  fun st =>
    match m st with
    | (Ok a, st1) => k a st1
    | (Throw e, st1) => (Throw e, st1)
    end.

Definition throw {A : Type} (e : Error) : M A := fun st => (Throw e, st).

Definition try_catch {A : Type} (body : M A) (handler : Error -> M A) : M A :=
  fun st =>
    match body st with
    | (Ok a, st1) => (Ok a, st1)
    | (Throw e, st1) => handler e st1
    end.

Declare Scope js_scope.
Delimit Scope js_scope with js.
Notation "x <- m ;; k" := (bind m (fun x => k))
  (at level 61, m at next level, right associativity) : js_scope.
Notation "m ;; k" := (bind m (fun _ => k))
  (at level 61, right associativity) : js_scope.

(** The first access to the data of an answer. *)
Definition use {D : Type} (p : Payload D) : M D :=
  match p with
  | Expected d => ret d
  | Unexpected msg => throw (TypeError msg)
  end.

Definition emit (ev : Event) : M unit :=
  fun st => (Ok tt, {| session := session st; trace := trace st ++ [ev] |}).

Definition get_session : M (option Session) := fun st => (Ok (session st), st).

Definition set_session (s : Session) : M unit :=
  fun st => (Ok tt, {| session := Some s; trace := trace st |}).

(** [await new Promise(resolve => setTimeout(resolve, ms))] *)
Definition sleep (ms : Z) : M unit := emit (EvSleep ms).

(** *** axios *)

Definition decimal (z : Z) : string := NilZero.string_of_int (Z.to_int z).

Definition AxiosError_status (s : Z) : Error :=
  {| err_name := "AxiosError";
     err_message := ("Request failed with status code " ++ decimal s)%string |}.

(** The default [validateStatus] of axios. *)
Definition validateStatus_default (s : Z) : bool := (200 <=? s) && (s <? 300).

(** One request: it is recorded, the server answers, and the promise
    settles according to [validateStatus]. *)
Definition axios_request {D : Type} (ev : Event)
    (reply : list Event -> Result (AxiosResponse D))
    (validateStatus : Z -> bool) : M (AxiosResponse D) :=
  (emit ev ;;
   fun st =>
     match reply (trace st) with
     | Ok r =>
         if validateStatus (status r) then (Ok r, st)
         else (Throw (AxiosError_status (status r)), st)
     | Throw e => (Throw e, st)
     end)%js.

(** ** The extractor *)

(** *** Cookies and the anti-forgery token *)

Definition dquote : ascii := Ascii.ascii_of_nat 34.
Definition semicolon : ascii := Ascii.ascii_of_nat 59.

(** [cookie.split(';')[0]] *)
Definition cookie_pair (cookie : string) : string := split_head semicolon cookie.

(** [cookies.map(cookie => cookie.split(';')[0]).join('; ')] *)
Definition cookie_header (l : list string) : string :=
  join "; " (map cookie_pair l).

(** The pattern searched in a page is: the attribute [name] set to
    [csrf-token], a space, the attribute [content] set to a quoted group
    of one or more characters other than a double quote.  This is its
    literal part, up to the opening quote of the group. *)
Definition csrf_prefix : string :=
  ("name=" ++ String dquote "csrf-token" ++ String dquote " content="
           ++ String dquote EmptyString)%string.

Fixpoint strip_prefix (p s : string) : option string :=
  match p, s with
  | EmptyString, _ => Some s
  | String a p', String b s' =>
      if Ascii.eqb a b then strip_prefix p' s' else None
  | String _ _, EmptyString => None
  end.

(** The characters before the first double quote, when there is one. *)
Fixpoint until_dquote (s : string) : option string :=
  match s with
  | EmptyString => None
  | String a rest =>
      if Ascii.eqb a dquote then Some EmptyString
      else option_map (String a) (until_dquote rest)
  end.

(** The pattern anchored at the start of [s]: the prefix, one or more
    characters other than a double quote, then a double quote.  The
    result is the capture group. *)
Definition csrf_match_here (s : string) : option string :=
  match strip_prefix csrf_prefix s with
  | Some rest =>
      match until_dquote rest with
      | Some (String a g) => Some (String a g)
      | _ => None
      end
  | None => None
  end.

(** [body.match(pattern)]: the capture group of the leftmost match,
    [None] when [match] returns [null]. *)
Fixpoint csrf_match (body : string) : option string :=
  match csrf_match_here body with
  | Some g => Some g
  | None =>
      match body with
      | EmptyString => None
      | String _ rest => csrf_match rest
      end
  end.

Definition is_empty (s : string) : bool :=
  match s with
  | EmptyString => true
  | String _ _ => false
  end.

Section Extractor.

Variable W : World.

Local Open Scope js_scope.

(** Request headers that never vary, URLs and the credentials taken
    from the configuration are left out of the events. *)

Definition login : M unit :=
  try_catch
    (loginPageResponse <-
       axios_request EvGetLoginPage (login_page_reply W) validateStatus_default ;;
     let initialCookies :=
       match set_cookie loginPageResponse with
       | val l => cookie_header l
       | _ => EmptyString
       end in
     loginPage <- use (data loginPageResponse) ;;
     let csrfMatch := csrf_match loginPage in
     let csrfToken := match csrfMatch with Some g => g | None => EmptyString end in
     if is_empty csrfToken then
       throw (Error_new "Failed to extract CSRF token from login page")
     else
       loginResponse <-
         axios_request (EvPostSignIn csrfToken initialCookies) (sign_in_reply W)
           (fun status => (status <? 400) || (status =? 302)) ;;
       let allCookies :=
         (or_list (set_cookie loginPageResponse) []
            ++ or_list (set_cookie loginResponse) [])%list in
       let sessionCookies := cookie_header allCookies in
       waasResponse <-
         axios_request (EvGetWaas sessionCookies) (waas_reply W)
           validateStatus_default ;;
       waasPage <- use (data waasResponse) ;;
       let waasCsrfMatch := csrf_match waasPage in
       let waasCsrfToken :=
         match waasCsrfMatch with Some g => g | None => EmptyString end in
       let finalCookies :=
         cookie_header
           (allCookies ++ or_list (set_cookie waasResponse) [])%list in
       set_session {| cookies := finalCookies; csrfToken := waasCsrfToken |})
    (fun error =>
       throw (Error_new ("Login failed: " ++ Error_toString error)%string)).

Definition fetchCompanyIds (page hitsPerPage : Z) : M (list Z) :=
  try_catch
    (response <-
       axios_request (EvSearch page hitsPerPage) (algolia_reply W)
         validateStatus_default ;;
     found <- use (data response) ;;
     let companyIds :=
       match nth_error (results found) 0 with
       | Some r =>
           match hits r with
           | val hs => map company_id hs
           | _ => []
           end
       | None => []
       end in
     ret companyIds)
    (fun error => throw error).

(** [this.session!.csrfToken] on a [null] session. *)
Definition TypeError_null_session : Error :=
  {| err_name := "TypeError";
     err_message := "null is not an object (evaluating 'this.session.csrfToken')" |}.

Definition fetchCompanyDetails (companyIds : list Z) : M (list Company) :=
  s <- get_session ;;
  (match s with
   | None => login
   | Some _ => ret tt
   end) ;;
  try_catch
    (s <- get_session ;;
     match s with
     | Some sess =>
         response <-
           axios_request
             (EvFetch companyIds (csrfToken sess) (cookies sess))
             (fetch_reply W) validateStatus_default ;;
         answer <- use (data response) ;;
         ret (or_list (companies answer) [])
     | None => throw TypeError_null_session
     end)
    (fun error => throw error).

End Extractor.

(** *** [extractData] *)

Definition inspect {A : Type} (a : A) : {b : A | a = b} := exist _ a eq_refl.

(** The state in which an awaited timer leaves the extractor. *)
Definition after_sleep (ms : Z) (st : State) : State := snd (sleep ms st).

(** An upper bound on the iterations left in the page loop. *)
Definition pages_left (numPages : num) (page : Z) : nat :=
  match numPages with
  | Int z => Z.to_nat (z - page)
  | _ => 0%nat
  end.

Lemma pages_left_decreases (numPages : num) (page : Z) :
  numPages <> Infinity false ->
  JS.ltb page numPages = true ->
  (pages_left numPages (page + 1) < pages_left numPages page)%nat.
Proof.
  destruct numPages as [z| |[|]]; simpl; intros Hfin Hlt;
    try discriminate; try congruence.
  apply Z.ltb_lt in Hlt. lia.
Qed.

(** [Math.ceil(maxCompanies / Math.min(maxCompanies, 100))] is never
    [+Infinity]: the divisor is zero only when the dividend is. *)
Lemma numPages_finite (maxCompanies : Z) :
  JS.ceil_div maxCompanies (Z.min maxCompanies 100) <> Infinity false.
Proof.
  unfold JS.ceil_div.
  destruct (Z.eqb_spec (Z.min maxCompanies 100) 0) as [H0|H0]; [|discriminate].
  destruct (Z.eqb_spec maxCompanies 0) as [Hm|Hm]; [discriminate|].
  destruct (Z.ltb_spec maxCompanies 0); [discriminate|lia].
Qed.

Definition batchSize : Z := 20.

Section Orchestrator.

Variable W : World.

(** The loop
    [for (page; page < numPages && allCompanyIds.length < maxCompanies; page++)].
    It is defined for every bound that is not [+Infinity]; with such a
    bound the loop need not end, and [numPages_finite] shows that
    [extractData] never computes one. *)
Equations? discover_loop (maxCompanies hitsPerPage : Z) (numPages : num)
    (Hfin : numPages <> Infinity false)
    (page : Z) (allCompanyIds : list Z) (st : State)
    : Result (list Z) * State
    by wf (pages_left numPages page) lt :=
  discover_loop maxCompanies hitsPerPage numPages Hfin page allCompanyIds st
    with inspect (JS.ltb page numPages
                  && (Z.of_nat (List.length allCompanyIds) <? maxCompanies)) => {
    | exist _ false _ => (Ok allCompanyIds, st)
    | exist _ true Hcond
        with fetchCompanyIds W page hitsPerPage st => {
        | (Throw e, st1) => (Throw e, st1)
        | (Ok companyIds, st1) =>
            discover_loop maxCompanies hitsPerPage numPages Hfin (page + 1)
              (allCompanyIds ++ companyIds)
              (if JS.ltb page (JS.pred numPages)
               then after_sleep 1000 st1 else st1) } }.
Proof.
  apply andb_prop in Hcond. destruct Hcond as [Hlt _].
  now apply pages_left_decreases.
Qed.

(** The loop
    [for (i; i < allCompanyIds.length; i += batchSize)]. *)
Equations? fetch_loop (allCompanyIds : list Z) (i : Z)
    (allCompanies : list Company) (st : State)
    : Result (list Company) * State
    by wf (Z.to_nat (Z.of_nat (List.length allCompanyIds) - i)) lt :=
  fetch_loop allCompanyIds i allCompanies st
    with inspect (i <? Z.of_nat (List.length allCompanyIds)) => {
    | exist _ false _ => (Ok allCompanies, st)
    | exist _ true Hcond
        with fetchCompanyDetails W
               (JS.slice allCompanyIds i (i + batchSize)) st => {
        | (Throw e, st1) => (Throw e, st1)
        | (Ok companies, st1) =>
            fetch_loop allCompanyIds (i + batchSize)
              (allCompanies ++ companies)
              (if i + batchSize <? Z.of_nat (List.length allCompanyIds)
               then after_sleep 2000 st1 else st1) } }.
Proof.
  apply Z.ltb_lt in Hcond. unfold batchSize. lia.
Qed.

Local Open Scope js_scope.

Definition extractData (maxCompanies : Z) : M (list OutputCompany) :=
  try_catch
    (let hitsPerPage := Z.min maxCompanies 100 in
     let numPages := JS.ceil_div maxCompanies hitsPerPage in
     allCompanyIds <-
       discover_loop maxCompanies hitsPerPage numPages
         (numPages_finite maxCompanies) 0 [] ;;
     let allCompanyIds := JS.slice allCompanyIds 0 maxCompanies in
     if Z.of_nat (List.length allCompanyIds) =? 0 then ret []
     else
       allCompanies <- fetch_loop allCompanyIds 0 [] ;;
       ret (formatCompanyData allCompanies))
    (fun error => throw error).

End Orchestrator.

(** ** [config.ts] *)

Module Config.

(** [process.env]: the variables that are set, with their values. *)
Definition ProcessEnv : Type := list (string * string).

(** [env[key]]: [None] is [undefined]. *)
Fixpoint lookup (key : string) (env : ProcessEnv) : option string :=
  match env with
  | [] => None
  | (k, v) :: rest => if String.eqb k key then Some v else lookup key rest
  end.

Record Config : Type := mkConfig {
  YC_USERNAME : string;
  YC_PASSWORD : string;
  ALGOLIA_APP_ID : string;
  ALGOLIA_API_KEY : string
}.

(** A zod issue: the value at [path] is not of the expected type. *)
Inductive ZodIssue : Type :=
| invalid_type (path : string).

(** [z.string()] on a value of [process.env]: it checks the type only,
    so every string passes; zod rejects short strings only under
    [.min(n)] or [.nonempty()], which the schema does not use. *)
Definition z_string (path : string) (v : option string)
  : string + list ZodIssue :=
  match v with
  | Some s => inl s
  | None => inr [invalid_type path]
  end.

Definition issues_of {A : Type} (r : A + list ZodIssue) : list ZodIssue :=
  match r with
  | inl _ => []
  | inr l => l
  end.

(** [configSchema.parse(env)]: [inr issues] is the thrown [ZodError]. *)
Definition configSchema_parse (env : ProcessEnv) : Config + list ZodIssue :=
  let u := z_string "YC_USERNAME" (lookup "YC_USERNAME" env) in
  let p := z_string "YC_PASSWORD" (lookup "YC_PASSWORD" env) in
  let a := z_string "ALGOLIA_APP_ID" (lookup "ALGOLIA_APP_ID" env) in
  let k := z_string "ALGOLIA_API_KEY" (lookup "ALGOLIA_API_KEY" env) in
  match u, p, a, k with
  | inl u', inl p', inl a', inl k' =>
      inl {| YC_USERNAME := u'; YC_PASSWORD := p';
             ALGOLIA_APP_ID := a'; ALGOLIA_API_KEY := k' |}
  | _, _, _, _ =>
      inr (issues_of u ++ issues_of p ++ issues_of a ++ issues_of k)
  end.

(** [export const config = configSchema.parse(process.env)] *)
Definition config (process_env : ProcessEnv) : Config + list ZodIssue :=
  configSchema_parse process_env.

Definition required_keys : list string :=
  ["YC_USERNAME"; "YC_PASSWORD"; "ALGOLIA_APP_ID"; "ALGOLIA_API_KEY"]%string.

End Config.

(** ** Vocabulary for traces *)

Definition is_search (e : Event) : bool :=
  match e with EvSearch _ _ => true | _ => false end.

Definition is_fetch (e : Event) : bool :=
  match e with EvFetch _ _ _ => true | _ => false end.

Definition is_sleep (e : Event) : bool :=
  match e with EvSleep _ => true | _ => false end.

Definition is_login_page (e : Event) : bool :=
  match e with EvGetLoginPage => true | _ => false end.

Definition is_sign_in (e : Event) : bool :=
  match e with EvPostSignIn _ _ => true | _ => false end.

(** The requests made by [login] after the first one. *)
Definition is_login_followup (e : Event) : bool :=
  match e with EvPostSignIn _ _ | EvGetWaas _ => true | _ => false end.

(** The request for a batch under a session. *)
Definition fetch_event (s : Session) (batch : list Z) : Event :=
  EvFetch batch (csrfToken s) (cookies s).

(** The identifier lists sent to the fetch endpoint, in order. *)
Fixpoint fetched_batches (tr : list Event) : list (list Z) :=
  match tr with
  | [] => []
  | EvFetch ids _ _ :: rest => ids :: fetched_batches rest
  | _ :: rest => fetched_batches rest
  end.

(** The sessions presented to the fetch endpoint, in order. *)
Fixpoint fetch_sessions (tr : list Event) : list Session :=
  match tr with
  | [] => []
  | EvFetch _ tok ck :: rest =>
      {| cookies := ck; csrfToken := tok |} :: fetch_sessions rest
  | _ :: rest => fetch_sessions rest
  end.

(** [x1; sep; x2; sep; ...; xn]: a separator between neighbours only. *)
Fixpoint intersperse {A : Type} (sep : A) (l : list A) : list A :=
  match l with
  | [] => []
  | x :: rest =>
      match rest with
      | [] => [x]
      | _ :: _ => x :: sep :: intersperse sep rest
      end
  end.

(** [from; from + 1; ...], [n] integers. *)
Fixpoint zseq (from : Z) (n : nat) : list Z :=
  match n with
  | O => []
  | S n' => from :: zseq (from + 1) n'
  end.

(** Consecutive blocks of [size] elements, the last one possibly
    shorter; [fuel] bounds the number of blocks. *)
Fixpoint chunks_fuel {A : Type} (fuel : nat) (size : nat) (l : list A)
  : list (list A) :=
  match fuel, l with
  | O, _ => []
  | _, [] => []
  | S fuel', _ :: _ => firstn size l :: chunks_fuel fuel' size (skipn size l)
  end.

Definition chunks {A : Type} (size : nat) (l : list A) : list (list A) :=
  chunks_fuel (List.length l) size l.

(** [l1] is an initial segment of [l2]. *)
Definition prefix_of {A : Type} (l1 l2 : list A) : Prop :=
  exists rest, l2 = l1 ++ rest.

(** The events that follow, up to the next call of the kind. *)
Fixpoint stretch (is_call : Event -> bool) (tr : list Event) : list Event :=
  match tr with
  | [] => []
  | e :: rest => if is_call e then [] else e :: stretch is_call rest
  end.

(** For each call of the kind, in order, the events between it and the
    next call of the kind (or the end of the trace). *)
Fixpoint segments (is_call : Event -> bool) (tr : list Event)
  : list (list Event) :=
  match tr with
  | [] => []
  | e :: rest =>
      if is_call e then stretch is_call rest :: segments is_call rest
      else segments is_call rest
  end.

(** What lies between consecutive calls of the kind. *)
Definition gaps (is_call : Event -> bool) (tr : list Event)
  : list (list Event) :=
  removelast (segments is_call tr).

(** What follows the final call of the kind. *)
Definition after_final (is_call : Event -> bool) (tr : list Event)
  : list Event :=
  last (segments is_call tr) [].

(** Between two consecutive calls of the kind lies exactly one timer of
    [ms] milliseconds, and nothing else. *)
Definition delay_between (is_call : Event -> bool) (ms : Z) (tr : list Event)
  : Prop :=
  Forall (fun gap => gap = [EvSleep ms]) (gaps is_call tr).

(** Does a timer come right after the final call of the kind? *)
Definition delayed_after_final (is_call : Event -> bool) (tr : list Event)
  : bool :=
  match after_final is_call tr with
  | e :: _ => is_sleep e
  | [] => false
  end.

(** The condition of the page loop. *)
Definition loop_cond (maxCompanies : Z) (numPages : num) (page : Z)
    (allCompanyIds : list Z) : bool :=
  JS.ltb page numPages && (Z.of_nat (List.length allCompanyIds) <? maxCompanies).

(** The requests for [n] consecutive pages from [page] on. *)
Definition search_events (hitsPerPage page : Z) (n : nat) : list Event :=
  map (fun p => EvSearch p hitsPerPage) (zseq page n).

(** Every discovery reply carries at most the number of hits asked for. *)
Definition respects_hitsPerPage (W : World) : Prop :=
  forall st page hitsPerPage ids st',
    0 <= hitsPerPage ->
    fetchCompanyIds W page hitsPerPage st = (Ok ids, st') ->
    Z.of_nat (List.length ids) <= hitsPerPage.

(** The discovery phase of [extractData]. *)
Definition discovery (W : World) (maxCompanies : Z) : M (list Z) :=
  discover_loop W maxCompanies (Z.min maxCompanies 100)
    (JS.ceil_div maxCompanies (Z.min maxCompanies 100))
    (numPages_finite maxCompanies) 0 [].

(** The events of a fetch phase: the batches, a timer between them. *)
Definition fetch_events (s : Session) (bs : list (list Z)) : list Event :=
  intersperse (EvSleep 2000) (map (fetch_event s) bs).

(** The events of a discovery phase: [k] pages from page 0 on, a timer
    between them, and what follows the last request. *)
Definition discovery_events (hitsPerPage : Z) (k : nat) (tail : list Event)
  : list Event :=
  intersperse (EvSleep 1000) (search_events hitsPerPage 0 k) ++ tail.

(** A run that starts with the extractor in the given session state. *)
Definition start (s : option Session) : State :=
  {| session := s; trace := [] |}.

(** ** Vocabulary for the properties *)

(** The positions present on a record: those of its [jobs] array, none
    when the property is missing or [null]. *)
Definition jobs_present (company : Company) : list Job :=
  match jobs company with
  | val l => l
  | undefined | null => []
  end.

(** An output position is the reduced form of a source position. *)
Definition job_reduced (job : Job) (out : OutputJob) : Prop :=
  oj_name out = or_string (title job) EmptyString
  /\ oj_pretty_min_experience out = pretty_min_experience job
  /\ oj_pretty_job_type out = pretty_job_type job
  /\ oj_pretty_role out = pretty_role job
  /\ oj_pretty_salary_range out = pretty_salary_range job.

(** An output record is the projection of a source record: same
    positions, one for one and in the same order. *)
Definition company_projected (company : Company) (out : OutputCompany) : Prop :=
  oc_name out = or_string (name company) EmptyString
  /\ oc_website out = or_string (website company) EmptyString
  /\ List.length (oc_jobs out) = List.length (jobs_present company)
  /\ Forall2 job_reduced (jobs_present company) (oc_jobs out).

Definition no_session : Session :=
  {| cookies := EmptyString; csrfToken := EmptyString |}.

(** What a run adds after its discovery phase: the requests of
    [login] if it has to log in, then the batches.  [d] is the outcome
    of the discovery phase and [r] the outcome of the run. *)
Definition fetch_shaped (maxCompanies : Z)
    (d : Result (list Z) * State)
    (r : Result (list OutputCompany) * State) : Prop :=
  exists lg s bs,
    trace (snd r) = trace (snd d) ++ lg ++ fetch_events s bs
    /\ match fst d with
       | Ok all =>
           prefix_of bs (chunks 20 (JS.slice all 0 maxCompanies))
           /\ ((exists out, fst r = Ok out) ->
               bs = chunks 20 (JS.slice all 0 maxCompanies))
       | Throw _ => bs = []
       end
    /\ match session (snd d) with
       | Some s0 =>
           lg = [] /\ (bs = [] \/ s = s0) /\ session (snd r) = Some s0
       | None =>
           (lg = [] /\ bs = [] /\ session (snd r) = None)
           \/ (exists followups,
                 lg = EvGetLoginPage :: followups
                 /\ forallb is_login_followup followups = true
                 /\ ((bs <> [] /\ session (snd r) = Some s)
                     \/ (bs = [] /\ session (snd r) = None)))
       end.

(** The kinds of events of each phase. *)
Definition is_discovery_event (e : Event) : bool := is_search e || is_sleep e.
Definition is_login_event (e : Event) : bool :=
  is_login_page e || is_login_followup e.
Definition is_fetch_phase_event (e : Event) : bool := is_fetch e || is_sleep e.

(** The requests of [login], when a run logs in at all. *)
Definition login_part (lg : list Event) : Prop :=
  lg = []
  \/ exists followups,
       lg = EvGetLoginPage :: followups
       /\ forallb is_login_followup followups = true.

(** The error the specification names for a login page without token. *)
Definition AuthError_missing_csrf_token : Error :=
  {| err_name := "AuthError"; err_message := "missing csrf token" |}.

(** The error [login] throws for a login page without token. *)
Definition login_failed_no_token : Error :=
  Error_new
    "Login failed: Error: Failed to extract CSRF token from login page".

(** ** Scenarios *)

Module Scenario.

(** A page that carries the token [tok] in its meta tag. *)
Definition page_with_token (tok : string) : string :=
  ("<head><meta " ++ csrf_prefix ++ tok ++ String dquote " /></head>")%string.

Definition page_without_token : string := "<head></head>".

Definition company_of (i : Z) : Company :=
  {| id := i; name := val "Acme"%string; website := undefined;
     description := undefined; jobs := val []; team_size := undefined;
     founders := undefined; primary_vertical := undefined;
     website_display := undefined; country := undefined |}.

Definition unexpected : Error := Error_new "unexpected request".

(** Servers that accept the login when [login_body] carries a token,
    list [per_page h] identifiers on a page asked with page size [h],
    and return one record per identifier fetched. *)
Definition servers (login_body : Payload string) (per_page : Z -> nat)
  : World :=
  {| login_page_reply := fun _ =>
       Ok (mkResponse 200 (val ["sid=1; Path=/"%string]) login_body);
     sign_in_reply := fun _ =>
       Ok (mkResponse 302 (val ["auth=2; HttpOnly"%string])
             (Expected EmptyString));
     waas_reply := fun _ =>
       Ok (mkResponse 200 undefined (Expected (page_with_token "portal")));
     algolia_reply := fun history =>
       match last history EvGetLoginPage with
       | EvSearch page hitsPerPage =>
           Ok (mkResponse 200 undefined
                 (Expected
                    {| results :=
                         [ {| hits := val (map mkHit
                                             (zseq (page * 1000)
                                                (per_page hitsPerPage)));
                              nbHits := 537 |} ] |}))
       | _ => Throw unexpected
       end;
     fetch_reply := fun history =>
       match last history EvGetLoginPage with
       | EvFetch ids _ _ =>
           Ok (mkResponse 200 undefined
                 (Expected {| companies := val (map company_of ids) |}))
       | _ => Throw unexpected
       end |}.

(** The search index honours the page size. *)
Definition honest : World :=
  servers (Expected (page_with_token "idp")) Z.to_nat.

(** The search index returns 150 hits whatever the page size. *)
Definition oversized : World :=
  servers (Expected (page_with_token "idp")) (fun _ => 150%nat).

(** The identity provider serves a login page without token. *)
Definition tokenless : World :=
  servers (Expected page_without_token) Z.to_nat.

(** The identity provider serves a login page whose body axios parses
    into a number. *)
Definition not_a_page : World :=
  servers (Unexpected "loginPageResponse.data.match is not a function")
    Z.to_nat.

(** A record that arrives without its positions. *)
Definition company_without_jobs : Company :=
  {| id := 7; name := val "Acme"%string; website := undefined;
     description := undefined; jobs := null; team_size := undefined;
     founders := undefined; primary_vertical := undefined;
     website_display := undefined; country := undefined |}.

(** An environment in which one variable is set to the empty string. *)
Definition env_with_empty_username : Config.ProcessEnv :=
  [("YC_USERNAME", EmptyString); ("YC_PASSWORD", "hunter2");
   ("ALGOLIA_APP_ID", "APP"); ("ALGOLIA_API_KEY", "KEY")]%string.

End Scenario.

(** ** Vocabulary for further properties *)

(** Does the character occur in the string? *)
Fixpoint has_char (c : ascii) (s : string) : bool :=
  match s with
  | EmptyString => false
  | String a rest => Ascii.eqb a c || has_char c rest
  end.

(** The page [body] holds, after [pre], the meta attribute pattern with
    the token [tok]: a non-empty run of characters other than a double
    quote, closed by a double quote. *)
Definition token_occurs (body pre tok post : string) : Prop :=
  body = (pre ++ csrf_prefix ++ tok ++ String dquote post)%string
  /\ tok <> EmptyString
  /\ has_char dquote tok = false.

(** Is the variable unset in the environment? *)
Definition unset (env : Config.ProcessEnv) (key : string) : bool :=
  match Config.lookup key env with
  | Some _ => false
  | None => true
  end.

(** The error [login] makes of the error [cause]. *)
Definition login_failed (cause : Error) : Error :=
  Error_new ("Login failed: " ++ Error_toString cause)%string.

(** The page holds no token for [login]: its text has no match, or it
    is not text at all. *)
Definition has_no_token (page : Payload string) : Prop :=
  match page with
  | Expected body => csrf_match body = None
  | Unexpected _ => True
  end.

(** What goes wrong in [login] on a login page that holds no token. *)
Definition no_token_cause (page : AxiosResponse (Payload string)) : Error :=
  if validateStatus_default (status page) then
    match data page with
    | Expected _ => Error_new "Failed to extract CSRF token from login page"
    | Unexpected msg => TypeError msg
    end
  else AxiosError_status (status page).

(** What the discovery request for a page yields when it is sent after
    [history]. *)
Definition search_outcome (W : World) (history : list Event)
    (page hitsPerPage : Z) : Result (list Z) :=
  fst (fetchCompanyIds W page hitsPerPage
         {| session := None; trace := history |}).

(** What the fetch request for a batch yields when it is sent after
    [history] with the given token and cookies. *)
Definition fetch_outcome (W : World) (history : list Event) (ids : list Z)
    (tok ck : string) : Result (list Company) :=
  fst (fetchCompanyDetails W ids
         {| session := Some {| cookies := ck; csrfToken := tok |};
            trace := history |}).

Definition ok_or_nil {A : Type} (r : Result (list A)) : list A :=
  match r with
  | Ok l => l
  | Throw _ => []
  end.

(** The identifiers the search index returned to the discovery requests
    of [tr], request by request, [tr] coming after [history]. *)
Fixpoint discovered (W : World) (history tr : list Event) : list Z :=
  match tr with
  | [] => []
  | e :: rest =>
      match e with
      | EvSearch page hitsPerPage =>
          ok_or_nil (search_outcome W history page hitsPerPage)
      | _ => []
      end ++ discovered W (history ++ [e]) rest
  end.

(** The records the portal returned to the fetch requests of [tr],
    request by request, [tr] coming after [history]. *)
Fixpoint fetched_records (W : World) (history tr : list Event)
  : list Company :=
  match tr with
  | [] => []
  | e :: rest =>
      match e with
      | EvFetch ids tok ck => ok_or_nil (fetch_outcome W history ids tok ck)
      | _ => []
      end ++ fetched_records W (history ++ [e]) rest
  end.

(** Every discovery reply carries exactly the number of hits asked for. *)
Definition full_pages (W : World) : Prop :=
  forall st page hitsPerPage ids st',
    0 <= hitsPerPage ->
    fetchCompanyIds W page hitsPerPage st = (Ok ids, st') ->
    Z.of_nat (List.length ids) = hitsPerPage.

(** * Properties *)

(** ** The formatter *)

Lemma formatJob_reduced (job : Job) : job_reduced job (formatJob job).
Proof. repeat split. Qed.

Lemma or_list_jobs_present (company : Company) :
  or_list (jobs company) [] = jobs_present company.
Proof. unfold jobs_present. now destruct (jobs company). Qed.

Lemma Forall2_map_right {A B : Type} (R : A -> B -> Prop) (f : A -> B) :
  (forall a, R a (f a)) -> forall l, Forall2 R l (map f l).
Proof.
  intros HR l. induction l as [|a l IH]; simpl; constructor; auto.
Qed.

Lemma formatCompany_projected (company : Company) :
  company_projected company (formatCompany company).
Proof.
  unfold company_projected, formatCompany; simpl.
  rewrite or_list_jobs_present, length_map.
  repeat split.
  apply Forall2_map_right, formatJob_reduced.
Qed.

(** C2.  The formatter yields exactly one output record per fetched
    record, in the same order, and the positions of each output record
    are those present on its source record, one for one and in order. *)
Theorem C2_format_one_per_record_in_order (companies : list Company) :
  List.length (formatCompanyData companies) = List.length companies
  /\ Forall2 company_projected companies (formatCompanyData companies).
Proof.
  unfold formatCompanyData. split.
  - apply length_map.
  - apply Forall2_map_right, formatCompany_projected.
Qed.

(** C10.  A record whose [jobs] property is missing or [null] is
    formatted, at its own position, into an output record with an empty
    list of positions. *)
Theorem C10_absent_jobs_give_empty_list
    (companies : list Company) (i : nat) (company : Company) :
  nth_error companies i = Some company ->
  jobs company = undefined \/ jobs company = null ->
  exists out,
    nth_error (formatCompanyData companies) i = Some out
    /\ oc_jobs out = [].
Proof.
  intros Hnth Habsent. exists (formatCompany company). split.
  - unfold formatCompanyData. now apply map_nth_error.
  - unfold formatCompany; simpl.
    destruct Habsent as [H|H]; rewrite H; reflexivity.
Qed.

Lemma C10_absent_jobs_witness :
  exists out,
    nth_error (formatCompanyData [Scenario.company_without_jobs]) 0 = Some out
    /\ oc_jobs out = [].
Proof.
  apply (C10_absent_jobs_give_empty_list [Scenario.company_without_jobs] 0
           Scenario.company_without_jobs).
  - reflexivity.
  - right. reflexivity.
Defined.

(** ** The configuration *)

Module ConfigFacts.
Import Config.

(** C8 as stated fails: here [YC_USERNAME] is set to the empty string,
    and yet loading the configuration does not fail; it returns a
    configuration with the empty user name. *)
Lemma C8_empty_value_accepted :
  (exists key,
      In key required_keys
      /\ lookup key Scenario.env_with_empty_username = Some EmptyString)
  /\ ~ (exists issues, config Scenario.env_with_empty_username = inr issues)
  /\ config Scenario.env_with_empty_username
     = inl {| YC_USERNAME := EmptyString; YC_PASSWORD := "hunter2";
              ALGOLIA_APP_ID := "APP"; ALGOLIA_API_KEY := "KEY" |}.
Proof.
  split; [|split].
  - exists "YC_USERNAME"%string. split; [simpl; tauto|reflexivity].
  - intros [issues H]. discriminate H.
  - reflexivity.
Qed.

(** C8, amended.  Loading the configuration fails exactly when one of
    the four variables is not set; when all four are set it succeeds
    and returns their values unchanged, whatever strings they are. *)
Theorem C8_config_fails_iff_a_variable_is_unset (env : ProcessEnv) :
  ((exists key, In key required_keys /\ lookup key env = None)
   <-> (exists issues, config env = inr issues))
  /\ (forall u p a k,
        (lookup "YC_USERNAME" env = Some u
         /\ lookup "YC_PASSWORD" env = Some p
         /\ lookup "ALGOLIA_APP_ID" env = Some a
         /\ lookup "ALGOLIA_API_KEY" env = Some k)
        <-> config env
            = inl {| YC_USERNAME := u; YC_PASSWORD := p;
                     ALGOLIA_APP_ID := a; ALGOLIA_API_KEY := k |}).
Proof.
  unfold config, configSchema_parse, required_keys.
  destruct (lookup "YC_USERNAME" env) as [u0|] eqn:Hu;
  destruct (lookup "YC_PASSWORD" env) as [p0|] eqn:Hp;
  destruct (lookup "ALGOLIA_APP_ID" env) as [a0|] eqn:Ha;
  destruct (lookup "ALGOLIA_API_KEY" env) as [k0|] eqn:Hk;
  simpl z_string; cbv iota beta.
  all: split;
    [ split;
      [ intros [key [Hin Hnone]]; simpl in Hin;
        repeat (destruct Hin as [<-|Hin]; [try congruence; eauto|]);
        try contradiction; eauto
      | intros [issues Hissues]; try discriminate;
        first
          [ exists "YC_USERNAME"%string; split; [simpl; tauto|assumption]
          | exists "YC_PASSWORD"%string; split; [simpl; tauto|assumption]
          | exists "ALGOLIA_APP_ID"%string; split; [simpl; tauto|assumption]
          | exists "ALGOLIA_API_KEY"%string; split; [simpl; tauto|assumption] ] ]
    | intros u p a k; split;
      [ intros (Eu & Ep & Ea & Ek); congruence
      | intros Hc; try discriminate; inversion Hc; auto ] ].
Qed.

End ConfigFacts.

(** ** Effects of the single operations *)

Section Effects.

Variable W : World.

Lemma axios_request_effect {D : Type} (ev : Event)
    (reply : list Event -> Result (AxiosResponse D))
    (validateStatus : Z -> bool) (st : State) r st' :
  axios_request ev reply validateStatus st = (r, st') ->
  st' = {| session := session st; trace := trace st ++ [ev] |}.
Proof.
  unfold axios_request, bind; simpl.
  destruct (reply (trace st ++ [ev])) as [resp|e];
    [destruct (validateStatus (status resp))|];
    intros H; inversion H; reflexivity.
Qed.

Lemma fetchCompanyIds_effect (page hitsPerPage : Z) (st : State) r st' :
  fetchCompanyIds W page hitsPerPage st = (r, st') ->
  st' = {| session := session st;
           trace := trace st ++ [EvSearch page hitsPerPage] |}.
Proof.
  unfold fetchCompanyIds, try_catch, bind, ret, throw.
  destruct (axios_request _ _ _ st) as [[resp|e] st1] eqn:Hreq;
    apply axios_request_effect in Hreq; [destruct (data resp); simpl|];
    intros H; inversion H; subst; reflexivity.
Qed.

(** What [login] leaves behind: the request for the login page, then
    at most the sign-in and the portal requests; the session is set
    exactly when it succeeds. *)
Lemma login_effect (st : State) r st' :
  login W st = (r, st') ->
  exists followups,
    trace st' = trace st ++ EvGetLoginPage :: followups
    /\ forallb is_login_followup followups = true
    /\ ((r = Ok tt /\ exists s, session st' = Some s)
        \/ ((exists e, r = Throw e) /\ session st' = session st)).
Proof.
  unfold login, try_catch, bind, throw, set_session.
  destruct (axios_request EvGetLoginPage _ _ st) as [[page|e] st1] eqn:H1;
    apply axios_request_effect in H1; subst st1; simpl.
  2:{ intros H; inversion H; subst. exists []. simpl. eauto 8. }
  destruct (data page) as [body|msg]; simpl.
  2:{ intros H; inversion H; subst. exists []. simpl. eauto 8. }
  destruct (is_empty _); simpl.
  { intros H; inversion H; subst. exists []. simpl. eauto 8. }
  match goal with
  | |- context [axios_request ?ev ?rp ?vs ?s] =>
      destruct (axios_request ev rp vs s) as [[resp2|e] st2] eqn:H2;
      apply axios_request_effect in H2; subst st2; simpl
  end.
  2:{ intros H; inversion H; subst; simpl. rewrite <- app_assoc.
      eexists [_]. simpl. eauto 8. }
  match goal with
  | |- context [axios_request ?ev ?rp ?vs ?s] =>
      destruct (axios_request ev rp vs s) as [[resp3|e] st3] eqn:H3;
      apply axios_request_effect in H3; subst st3; simpl
  end.
  2:{ intros H; inversion H; subst; simpl. rewrite <- !app_assoc.
      eexists [_; _]. simpl. eauto 8. }
  destruct (data resp3) as [body3|msg3]; simpl.
  all: intros H; inversion H; subst; simpl; rewrite <- !app_assoc;
    eexists [_; _]; simpl; eauto 8.
Qed.

End Effects.

(** ** Lists: slices, blocks and separators *)

Section ListFacts.

Context {A : Type}.

Lemma firstn_cap (n : nat) (l : list A) :
  firstn (Nat.min n (List.length l)) l = firstn n l.
Proof.
  destruct (Nat.le_ge_cases n (List.length l)) as [H|H].
  - now rewrite Nat.min_l.
  - rewrite Nat.min_r by assumption.
    now rewrite firstn_all, firstn_all2.
Qed.

(** A slice that starts inside the non-negative range is a block of
    the rest of the list. *)
Lemma slice_block (l : list A) (i size : Z) :
  0 <= i -> 0 <= size ->
  JS.slice l i (i + size)
  = firstn (Z.to_nat size) (skipn (Z.to_nat i) l).
Proof.
  intros Hi Hsize. unfold JS.slice.
  destruct (Z.ltb_spec i 0); [lia|].
  destruct (Z.ltb_spec (i + size) 0); [lia|].
  destruct (Z.le_gt_cases (Z.of_nat (List.length l)) i) as [Hout|Hin].
  - rewrite (skipn_all2 (n := Z.to_nat i)) by lia.
    rewrite firstn_nil.
    rewrite Z.min_r by lia.
    rewrite skipn_all2 by lia. apply firstn_nil.
  - rewrite (Z.min_l i) by lia.
    rewrite <- (firstn_cap (Z.to_nat size)).
    rewrite length_skipn. f_equal. lia.
Qed.

(** [l.slice(0, n)] keeps the first [n] elements. *)
Lemma slice_truncate (l : list A) (n : Z) :
  0 <= n -> JS.slice l 0 n = firstn (Z.to_nat n) l.
Proof.
  intros Hn. change n with (0 + n) at 1.
  now rewrite slice_block by lia.
Qed.

Lemma chunks_fuel_enough (size : nat) (fuel fuel' : nat) (l : list A) :
  (List.length l <= fuel)%nat -> (List.length l <= fuel')%nat ->
  chunks_fuel fuel (S size) l = chunks_fuel fuel' (S size) l.
Proof.
  revert fuel' l. induction fuel as [|fuel IH]; intros fuel' l Hf Hf'.
  - destruct l; [|simpl in Hf; lia]. now destruct fuel'.
  - destruct l as [|a l]; [now destruct fuel'|].
    destruct fuel' as [|fuel']; [simpl in Hf'; lia|].
    cbn [chunks_fuel]. f_equal. apply IH.
    + simpl in *. rewrite length_skipn. lia.
    + simpl in *. rewrite length_skipn. lia.
Qed.

Lemma chunks_cons (size : nat) (a : A) (l : list A) :
  chunks (S size) (a :: l)
  = firstn (S size) (a :: l) :: chunks (S size) (skipn (S size) (a :: l)).
Proof.
  unfold chunks. cbn [List.length chunks_fuel]. f_equal.
  apply chunks_fuel_enough; simpl; rewrite ?length_skipn; lia.
Qed.

(** Induction along the blocks of a list. *)
Lemma chunks_ind (size : nat) (P : list A -> Prop) :
  P [] ->
  (forall a l, P (skipn (S size) (a :: l)) -> P (a :: l)) ->
  forall l, P l.
Proof.
  intros Hnil Hstep l.
  remember (List.length l) as n eqn:Hn. revert l Hn.
  induction n as [n IH] using (well_founded_induction Nat.lt_wf_0).
  intros [|a l] Hn; [exact Hnil|].
  apply Hstep, (IH (List.length (skipn (S size) (a :: l)))); [|reflexivity].
  subst n. simpl. rewrite length_skipn. lia.
Qed.

Lemma concat_chunks (size : nat) (l : list A) :
  List.concat (chunks (S size) l) = l.
Proof.
  induction l as [|a l IH] using (chunks_ind size); [reflexivity|].
  rewrite chunks_cons. cbn [List.concat]. rewrite IH.
  apply firstn_skipn.
Qed.

Lemma chunks_sizes (size : nat) (l : list A) :
  Forall (fun b => (1 <= List.length b <= S size)%nat) (chunks (S size) l).
Proof.
  induction l as [|a l IH] using (chunks_ind size); [constructor|].
  rewrite chunks_cons. constructor; [|exact IH].
  rewrite length_firstn. simpl. lia.
Qed.


Lemma intersperse_cons2 (sep x y : A) (l : list A) :
  intersperse sep (x :: y :: l) = x :: sep :: intersperse sep (y :: l).
Proof. reflexivity. Qed.

Lemma intersperse_cons_nonempty (sep x : A) (l : list A) :
  l <> [] -> intersperse sep (x :: l) = x :: sep :: intersperse sep l.
Proof. destruct l; [congruence|reflexivity]. Qed.

Lemma prefix_of_refl (l : list A) : prefix_of l l.
Proof. exists []. now rewrite app_nil_r. Qed.

Lemma prefix_of_nil (l : list A) : prefix_of [] l.
Proof. now exists l. Qed.

Lemma prefix_of_cons (a : A) (l1 l2 : list A) :
  prefix_of l1 l2 -> prefix_of (a :: l1) (a :: l2).
Proof. intros [rest ->]. now exists rest. Qed.

Lemma prefix_of_nil_inv (l : list A) : prefix_of l [] -> l = [].
Proof. intros [rest H]. symmetry in H. now apply app_eq_nil in H. Qed.

End ListFacts.

(** ** The batch loop *)

Section FetchPhase.

Variable W : World.

Lemma fetchCompanyDetails_logged_in (ids : list Z) (st : State) s r st' :
  session st = Some s ->
  fetchCompanyDetails W ids st = (r, st') ->
  st' = {| session := Some s; trace := trace st ++ [fetch_event s ids] |}.
Proof.
  intros Hs. unfold fetchCompanyDetails, bind, get_session, try_catch, ret, throw.
  cbv beta iota. rewrite Hs. cbv beta iota. rewrite Hs. cbv beta iota.
  match goal with
  | |- context [axios_request ?ev ?rp ?vs ?s0] =>
      destruct (axios_request ev rp vs s0) as [[resp|e] st1] eqn:Hreq;
      apply axios_request_effect in Hreq; subst st1; rewrite Hs
  end; [destruct (data resp); simpl|]; intros H; inversion H; reflexivity.
Qed.

Lemma chunks_skipn_done (ids : list Z) (i : Z) :
  Z.of_nat (List.length ids) <= i ->
  chunks 20 (skipn (Z.to_nat i) ids) = [].
Proof. intros H. now rewrite skipn_all2 by lia. Qed.

Lemma chunks_skipn_step (ids : list Z) (i : Z) :
  0 <= i < Z.of_nat (List.length ids) ->
  chunks 20 (skipn (Z.to_nat i) ids)
  = JS.slice ids i (i + batchSize)
    :: chunks 20 (skipn (Z.to_nat (i + batchSize)) ids).
Proof.
  intros Hi. unfold batchSize.
  rewrite slice_block by lia.
  replace (Z.to_nat (i + 20)) with (20 + Z.to_nat i)%nat by lia.
  rewrite <- skipn_skipn.
  destruct (skipn (Z.to_nat i) ids) as [|a rest] eqn:Hrest.
  - apply (f_equal (@List.length Z)) in Hrest.
    rewrite length_skipn in Hrest. simpl in Hrest. lia.
  - apply chunks_cons.
Qed.

Lemma fetch_loop_logged_in (ids : list Z) (i : Z) (acc : list Company)
    (st : State) :
  forall s, session st = Some s -> 0 <= i ->
  exists bs,
    prefix_of bs (chunks 20 (skipn (Z.to_nat i) ids))
    /\ snd (fetch_loop W ids i acc st)
       = {| session := Some s;
            trace := trace st
                     ++ intersperse (EvSleep 2000) (map (fetch_event s) bs) |}
    /\ ((exists cs, fst (fetch_loop W ids i acc st) = Ok cs) ->
        bs = chunks 20 (skipn (Z.to_nat i) ids))
    /\ (i < Z.of_nat (List.length ids) -> bs <> []).
Proof.
  funelim (fetch_loop W ids i acc st); intros s Hs Hi;
    try rewrite <- Heqcall; clear Heqcall.
  - (* the loop is over *)
    pose proof (proj1 (Z.ltb_ge _ _) e) as Hge.
    exists []. rewrite chunks_skipn_done by assumption.
    repeat split.
    + apply prefix_of_nil.
    + simpl. rewrite app_nil_r. destruct st; simpl in *; congruence.
    + lia.
  - (* one more batch, fetched *)
    pose proof (proj1 (Z.ltb_lt _ _) Hcond) as Hlt.
    match goal with
    | Hd : fetchCompanyDetails _ _ _ = _ |- _ =>
        apply (fetchCompanyDetails_logged_in _ _ s) in Hd; [|assumption];
        rename Hd into Hst1
    end.
    rewrite chunks_skipn_step by lia.
    set (b := JS.slice allCompanyIds i (i + batchSize)) in *.
    destruct (Z.ltb_spec (i + batchSize) (Z.of_nat (List.length allCompanyIds)))
      as [Hmore|Hlast].
    + destruct (H s) as (bs & Hpre & Htr & Hok & Hne).
      { subst st1. reflexivity. }
      { unfold batchSize. lia. }
      exists (b :: bs). repeat split.
      * now apply prefix_of_cons.
      * rewrite Htr. subst st1.
        unfold after_sleep, sleep, emit. cbn [snd trace session map].
        rewrite intersperse_cons_nonempty.
        { rewrite <- !app_assoc. reflexivity. }
        specialize (Hne Hmore). destruct bs; [congruence|discriminate].
      * intros Hcs. now rewrite (Hok Hcs).
      * discriminate.
    + destruct (H s) as (bs & Hpre & Htr & Hok & Hne).
      { subst st1. reflexivity. }
      { unfold batchSize. lia. }
      rewrite chunks_skipn_done in Hpre |- * by assumption.
      apply prefix_of_nil_inv in Hpre. subst bs.
      exists [b]. repeat split.
      * apply prefix_of_refl.
      * rewrite Htr. subst st1. simpl. now rewrite app_nil_r.
      * discriminate.
  - (* one more batch, failed *)
    pose proof (proj1 (Z.ltb_lt _ _) Hcond) as Hlt.
    match goal with
    | Hd : fetchCompanyDetails _ _ _ = _ |- _ =>
        apply (fetchCompanyDetails_logged_in _ _ s) in Hd; [|assumption];
        rename Hd into Hst1
    end.
    rewrite chunks_skipn_step by lia.
    exists [JS.slice allCompanyIds i (i + batchSize)]. repeat split.
    + apply prefix_of_cons, prefix_of_nil.
    + simpl. now subst st1.
    + intros [cs Hcs]. discriminate.
    + discriminate.
Qed.

Lemma fetch_loop_step (ids : list Z) (i : Z) (acc : list Company)
    (st : State) :
  fetch_loop W ids i acc st
  = if i <? Z.of_nat (List.length ids) then
      match fetchCompanyDetails W (JS.slice ids i (i + batchSize)) st with
      | (Ok companies, st1) =>
          fetch_loop W ids (i + batchSize) (acc ++ companies)
            (if i + batchSize <? Z.of_nat (List.length ids)
             then after_sleep 2000 st1 else st1)
      | (Throw e, st1) => (Throw e, st1)
      end
    else (Ok acc, st).
Proof.
  funelim (fetch_loop W ids i acc st); try rewrite <- Heqcall; clear Heqcall.
  - now rewrite e.
  - rewrite Hcond.
    match goal with Hd : fetchCompanyDetails _ _ _ = _ |- _ => now rewrite Hd end.
  - rewrite Hcond.
    match goal with Hd : fetchCompanyDetails _ _ _ = _ |- _ => now rewrite Hd end.
Qed.

Lemma fetchCompanyDetails_after_login (ids : list Z) (st st_l : State) :
  session st = None ->
  login W st = (Ok tt, st_l) ->
  fetchCompanyDetails W ids st = fetchCompanyDetails W ids st_l.
Proof.
  intros Hs Hlogin.
  destruct (login_effect W st _ _ Hlogin)
    as (fu & _ & _ & [[_ [s Hs_l]]|[[e He] _]]); [|discriminate].
  unfold fetchCompanyDetails, bind, get_session, ret.
  cbv beta iota. rewrite Hs, Hlogin, Hs_l. reflexivity.
Qed.

Lemma fetchCompanyDetails_login_failed (ids : list Z) (st st_l : State) e :
  session st = None ->
  login W st = (Throw e, st_l) ->
  fetchCompanyDetails W ids st = (Throw e, st_l).
Proof.
  intros Hs Hlogin.
  unfold fetchCompanyDetails, bind, get_session.
  cbv beta iota. now rewrite Hs, Hlogin.
Qed.

Lemma fetch_loop_after_login (ids : list Z) (st st_l : State) :
  ids <> [] ->
  session st = None ->
  login W st = (Ok tt, st_l) ->
  fetch_loop W ids 0 [] st = fetch_loop W ids 0 [] st_l.
Proof.
  intros Hne Hs Hlogin.
  rewrite (fetch_loop_step ids 0 [] st), (fetch_loop_step ids 0 [] st_l).
  destruct (Z.ltb_spec 0 (Z.of_nat (List.length ids)));
    [|destruct ids; [congruence|simpl in *; lia]].
  now rewrite (fetchCompanyDetails_after_login _ st st_l).
Qed.

Lemma fetch_loop_login_failed (ids : list Z) (st st_l : State) (e : Error) :
  ids <> [] ->
  session st = None ->
  login W st = (Throw e, st_l) ->
  fetch_loop W ids 0 [] st = (Throw e, st_l).
Proof.
  intros Hne Hs Hlogin. rewrite fetch_loop_step.
  destruct (Z.ltb_spec 0 (Z.of_nat (List.length ids)));
    [|destruct ids; [congruence|simpl in *; lia]].
  now rewrite (fetchCompanyDetails_login_failed _ st st_l e).
Qed.

(** The fetch phase of a run over a non-empty identifier list: the
    requests of [login] when no session exists yet, then the batches,
    separated by timers of two seconds. *)
Lemma fetch_phase (ids : list Z) (st : State) :
  ids <> [] ->
  exists lg s bs,
    trace (snd (fetch_loop W ids 0 [] st))
    = trace st ++ lg ++ fetch_events s bs
    /\ prefix_of bs (chunks 20 ids)
    /\ ((exists cs, fst (fetch_loop W ids 0 [] st) = Ok cs) ->
        bs = chunks 20 ids)
    /\ match session st with
       | Some s0 =>
           lg = [] /\ s = s0 /\ bs <> []
           /\ session (snd (fetch_loop W ids 0 [] st)) = Some s0
       | None =>
           exists followups,
             lg = EvGetLoginPage :: followups
             /\ forallb is_login_followup followups = true
             /\ ((bs <> []
                  /\ session (snd (fetch_loop W ids 0 [] st)) = Some s)
                 \/ (bs = []
                     /\ session (snd (fetch_loop W ids 0 [] st)) = None
                     /\ exists e, fst (fetch_loop W ids 0 [] st) = Throw e))
       end.
Proof.
  intros Hne.
  assert (Hlen : 0 < Z.of_nat (List.length ids))
    by (destruct ids; [congruence|simpl; lia]).
  destruct (session st) as [s0|] eqn:Hs.
  - destruct (fetch_loop_logged_in ids 0 [] st s0 Hs (Z.le_refl 0))
      as (bs & Hpre & Hst & Hok & Hbs).
    change (skipn (Z.to_nat 0) ids) with ids in *.
    exists [], s0, bs. rewrite Hst. unfold fetch_events. simpl. auto 10.
  - destruct (login W st) as [[[]|e] st_l] eqn:Hlogin.
    + destruct (login_effect W st _ _ Hlogin)
        as (fu & Htr & Hfu & [[_ [s Hs_l]]|[[e He] _]]); [|discriminate].
      destruct (fetch_loop_logged_in ids 0 [] st_l s Hs_l (Z.le_refl 0))
        as (bs & Hpre & Hst & Hok & Hbs).
      assert (Heq : fetch_loop W ids 0 [] st = fetch_loop W ids 0 [] st_l).
      { rewrite (fetch_loop_step ids 0 [] st).
        rewrite (fetch_loop_step ids 0 [] st_l).
        destruct (Z.ltb_spec 0 (Z.of_nat (List.length ids))); [|lia].
        now rewrite (fetchCompanyDetails_after_login _ st st_l). }
      change (skipn (Z.to_nat 0) ids) with ids in *.
      rewrite Heq, Hst. simpl.
      exists (EvGetLoginPage :: fu), s, bs.
      rewrite Htr, <- app_assoc. unfold fetch_events. simpl.
      repeat split; auto.
      exists fu. auto 6.
    + destruct (login_effect W st _ _ Hlogin)
        as (fu & Htr & Hfu & [[Hr _]|[_ Hs_l]]); [discriminate|].
      assert (Heq : fetch_loop W ids 0 [] st = (Throw e, st_l)).
      { rewrite fetch_loop_step.
        destruct (Z.ltb_spec 0 (Z.of_nat (List.length ids))); [|lia].
        now rewrite (fetchCompanyDetails_login_failed _ st st_l e). }
      rewrite Heq. simpl.
      exists (EvGetLoginPage :: fu), no_session, []. unfold fetch_events. simpl.
      rewrite app_nil_r. repeat split.
      * assumption.
      * apply prefix_of_nil.
      * intros [cs Hcs]. discriminate.
      * exists fu. repeat split; auto. right. repeat split; eauto.
        congruence.
Qed.

End FetchPhase.

(** ** The page loop *)

Section DiscoveryPhase.

Variable W : World.

Lemma discover_loop_step (maxCompanies hitsPerPage : Z) (numPages : num)
    (Hfin : numPages <> Infinity false) (page : Z) (all : list Z)
    (st : State) :
  discover_loop W maxCompanies hitsPerPage numPages Hfin page all st
  = if loop_cond maxCompanies numPages page all then
      match fetchCompanyIds W page hitsPerPage st with
      | (Ok companyIds, st1) =>
          discover_loop W maxCompanies hitsPerPage numPages Hfin (page + 1)
            (all ++ companyIds)
            (if JS.ltb page (JS.pred numPages)
             then after_sleep 1000 st1 else st1)
      | (Throw e, st1) => (Throw e, st1)
      end
    else (Ok all, st).
Proof.
  unfold loop_cond.
  funelim (discover_loop W maxCompanies hitsPerPage numPages Hfin page all st);
    try rewrite <- Heqcall; clear Heqcall.
  - now rewrite e.
  - rewrite Hcond.
    match goal with Hd : fetchCompanyIds _ _ _ _ = _ |- _ => now rewrite Hd end.
  - rewrite Hcond.
    match goal with Hd : fetchCompanyIds _ _ _ _ = _ |- _ => now rewrite Hd end.
Qed.

Lemma ltb_succ_pred (numPages : num) (page : Z) :
  numPages <> Infinity false ->
  JS.ltb (page + 1) numPages = JS.ltb page (JS.pred numPages).
Proof.
  destruct numPages as [n| |[|]]; simpl; intros Hfin; try congruence.
  destruct (Z.ltb_spec (page + 1) n), (Z.ltb_spec page (n - 1)); auto; lia.
Qed.

Lemma discover_loop_shape (maxCompanies hitsPerPage : Z) (numPages : num)
    (Hfin : numPages <> Infinity false) (page : Z) (all : list Z)
    (st : State) :
  exists k tail,
    snd (discover_loop W maxCompanies hitsPerPage numPages Hfin page all st)
    = {| session := session st;
         trace := trace st
                  ++ intersperse (EvSleep 1000)
                       (search_events hitsPerPage page k)
                  ++ tail |}
    /\ (k = 0%nat <-> loop_cond maxCompanies numPages page all = false)
    /\ (tail = [] \/ (tail = [EvSleep 1000] /\ k <> 0%nat))
    /\ (respects_hitsPerPage W ->
        0 <= page -> 0 <= hitsPerPage ->
        Z.of_nat (List.length all) <= page * hitsPerPage ->
        (forall n, numPages = Int n -> (n - 1) * hitsPerPage < maxCompanies) ->
        tail = [])
    /\ (tail = [EvSleep 1000]
        <-> k <> 0%nat
            /\ (exists found,
                   fst (discover_loop W maxCompanies hitsPerPage numPages Hfin
                          page all st) = Ok found
                   /\ maxCompanies <= Z.of_nat (List.length found))
            /\ JS.ltb (page + Z.of_nat k) numPages = true).
Proof.
  funelim (discover_loop W maxCompanies hitsPerPage numPages Hfin page all st);
    try rewrite <- Heqcall; clear Heqcall.
  - exists 0%nat, []. simpl. rewrite app_nil_r.
    unfold loop_cond. rewrite e.
    split; [destruct st; reflexivity|]. split; [split; auto|].
    split; [now left|]. split; [auto|].
    split; [discriminate|]. intros (Hk0 & _). congruence.
  - match goal with
    | Hd : fetchCompanyIds _ _ _ _ = _ |- _ =>
        pose proof (fetchCompanyIds_effect _ _ _ _ _ _ Hd) as Hst1;
        rename Hd into Hids
    end.
    destruct H as (k' & tail' & Htr & Hk & Htail & Hwell & Hearly).
    rewrite Htr. clear Htr H0.
    rewrite <- (ltb_succ_pred numPages page Hfin) in *.
    assert (Hcond' : loop_cond maxCompanies numPages page allCompanyIds = true)
      by exact Hcond.
    destruct k' as [|k''].
    + (* the loop stops after this page *)
      assert (tail' = []) as -> by (destruct Htail as [|[_ ?]]; congruence).
      assert (Hstop : loop_cond maxCompanies numPages (page + 1)
                        (allCompanyIds ++ companyIds) = false)
        by now apply Hk.
      exists 1%nat, (if JS.ltb (page + 1) numPages then [EvSleep 1000] else []).
      split; [|split; [split|split; [|split]]].
      * subst st1. destruct (JS.ltb (page + 1) numPages);
          unfold after_sleep; simpl; rewrite <- ?app_assoc; reflexivity.
      * discriminate.
      * congruence.
      * destruct (JS.ltb (page + 1) numPages); [right|left]; auto.
      * intros Hresp Hpage Hh Hlen Hbound.
        destruct (JS.ltb (page + 1) numPages) eqn:Hnext; [exfalso|reflexivity].
        unfold loop_cond in Hstop. rewrite Hnext in Hstop. simpl in Hstop.
        apply Z.ltb_ge in Hstop.
        specialize (Hresp _ _ _ _ _ Hh Hids).
        destruct numPages as [n| |[|]]; simpl in Hnext; try discriminate;
          try congruence.
        apply Z.ltb_lt in Hnext. specialize (Hbound n eq_refl).
        rewrite length_app in Hstop. nia.
      * rewrite discover_loop_step, Hstop. cbn [fst].
        change (Z.of_nat 1) with 1.
        destruct (JS.ltb (page + 1) numPages) eqn:Hnext.
        -- split; [intros _|reflexivity].
           split; [discriminate|]. split; [|reflexivity].
           exists (allCompanyIds ++ companyIds). split; [reflexivity|].
           unfold loop_cond in Hstop. rewrite Hnext in Hstop.
           simpl in Hstop. now apply Z.ltb_ge in Hstop.
        -- split; [discriminate|]. intros (_ & _ & Hno). discriminate Hno.
    + (* another page follows, after the timer *)
      assert (Hnext : JS.ltb (page + 1) numPages = true).
      { destruct (loop_cond maxCompanies numPages (page + 1)
                    (allCompanyIds ++ companyIds)) eqn:Hc.
        - unfold loop_cond in Hc. now apply andb_prop in Hc.
        - pose proof (proj2 Hk eq_refl). discriminate. }
      rewrite Hnext in *.
      exists (S (S k'')), tail'.
      split; [|split; [split|split; [|split]]].
      * subst st1. unfold after_sleep. simpl. rewrite <- !app_assoc.
        reflexivity.
      * discriminate.
      * congruence.
      * destruct Htail as [?|[? _]]; [left|right]; auto.
      * intros Hresp Hpage Hh Hlen Hbound.
        apply Hwell; auto; try lia.
        specialize (Hresp _ _ _ _ _ Hh Hids).
        rewrite length_app. nia.
      * replace (page + Z.of_nat (S (S k'')))
          with (page + 1 + Z.of_nat (S k'')) by lia.
        rewrite Hearly. split.
        -- intros (_ & Hfound & Hmore). split; [discriminate|]. now split.
        -- intros (_ & Hfound & Hmore). split; [discriminate|]. now split.
  - match goal with
    | Hd : fetchCompanyIds _ _ _ _ = _ |- _ =>
        pose proof (fetchCompanyIds_effect _ _ _ _ _ _ Hd) as Hst1
    end.
    exists 1%nat, []. subst st1. simpl.
    split; [reflexivity|]. split; [split; [discriminate|]|].
    { unfold loop_cond. congruence. }
    split; [now left|]. split; [auto|].
    split; [discriminate|]. intros (_ & (found & Hfound & _) & _).
    discriminate Hfound.
Qed.

End DiscoveryPhase.

(** ** A whole run *)

Lemma prefix_of_Forall {A : Type} (P : A -> Prop) (l1 l2 : list A) :
  prefix_of l1 l2 -> Forall P l2 -> Forall P l1.
Proof. intros [rest ->] H. now apply Forall_app in H. Qed.

(** The page count leaves the last page short of the target. *)
Lemma numPages_bound (maxCompanies n : Z) :
  0 < maxCompanies ->
  JS.ceil_div maxCompanies (Z.min maxCompanies 100) = Int n ->
  (n - 1) * Z.min maxCompanies 100 < maxCompanies.
Proof.
  intros Hpos. unfold JS.ceil_div.
  destruct (Z.eqb_spec (Z.min maxCompanies 100) 0) as [H0|H0]; [lia|].
  intros Hn. inversion Hn; subst n. clear Hn.
  set (h := Z.min maxCompanies 100) in *.
  assert (Hh : 0 < h) by (unfold h; lia).
  pose proof (Z.div_mod (- maxCompanies) h H0) as Hdm.
  pose proof (Z.mod_pos_bound (- maxCompanies) h Hh) as Hmod.
  nia.
Qed.

Section Run.

Variable W : World.

Lemma extractData_phases (maxCompanies : Z) (st : State) :
  extractData W maxCompanies st
  = match discovery W maxCompanies st with
    | (Ok all, st1) =>
        let ids := JS.slice all 0 maxCompanies in
        if Z.of_nat (List.length ids) =? 0 then (Ok [], st1)
        else
          match fetch_loop W ids 0 [] st1 with
          | (Ok cs, st2) => (Ok (formatCompanyData cs), st2)
          | (Throw e, st2) => (Throw e, st2)
          end
    | (Throw e, st1) => (Throw e, st1)
    end.
Proof.
  unfold extractData, discovery, try_catch, bind, ret, throw.
  destruct (discover_loop _ _ _ _ _ _ _ st) as [[all|e] st1]; [|reflexivity].
  cbv zeta.
  destruct (Z.of_nat (List.length (JS.slice all 0 maxCompanies)) =? 0);
    [reflexivity|].
  now destruct (fetch_loop _ _ _ _ st1) as [[cs|e] st2].
Qed.

(** The discovery phase of a run. *)
Lemma discovery_phase (maxCompanies : Z) (st : State) :
  exists k tail,
    snd (discovery W maxCompanies st)
    = {| session := session st;
         trace := trace st
                  ++ discovery_events (Z.min maxCompanies 100) k tail |}
    /\ (tail = [] \/ (tail = [EvSleep 1000] /\ k <> 0%nat))
    /\ (respects_hitsPerPage W -> tail = [])
    /\ (tail = [EvSleep 1000]
        <-> k <> 0%nat
            /\ (exists found,
                   fst (discovery W maxCompanies st) = Ok found
                   /\ maxCompanies <= Z.of_nat (List.length found))
            /\ JS.ltb (Z.of_nat k)
                 (JS.ceil_div maxCompanies (Z.min maxCompanies 100)) = true).
Proof.
  unfold discovery, discovery_events.
  destruct (discover_loop_shape W maxCompanies (Z.min maxCompanies 100)
              (JS.ceil_div maxCompanies (Z.min maxCompanies 100))
              (numPages_finite maxCompanies) 0 [] st)
    as (k & tail & Hst & Hk & Htail & Hwell & Hearly).
  exists k, tail.
  split; [exact Hst|]. split; [exact Htail|]. split; [|exact Hearly].
  intros Hresp.
  destruct (Z.lt_ge_cases 0 maxCompanies) as [Hpos|Hneg].
  - apply Hwell;
      [assumption|lia|lia|simpl; lia|intros n Hn; now apply numPages_bound].
  - destruct Htail as [?|[_ Hk0]]; [assumption|].
    exfalso. apply Hk0, Hk. unfold loop_cond. simpl.
    destruct (Z.ltb_spec 0 maxCompanies); [lia|]. apply andb_false_r.
Qed.

Lemma fetch_shaped_nothing (maxCompanies : Z) d r :
  snd r = snd d ->
  match fst d with
  | Ok all => JS.slice all 0 maxCompanies = []
  | Throw _ => True
  end ->
  fetch_shaped maxCompanies d r.
Proof.
  intros Hst Hd. exists [], no_session, []. rewrite Hst. simpl.
  rewrite app_nil_r. repeat split; auto.
  - destruct (fst d); [|reflexivity]. rewrite Hd. split.
    + apply prefix_of_nil.
    + reflexivity.
  - destruct (session (snd d)); auto.
Qed.

Lemma run_fetch_shape (maxCompanies : Z) (st : State) :
  fetch_shaped maxCompanies (discovery W maxCompanies st)
    (extractData W maxCompanies st).
Proof.
  rewrite extractData_phases.
  destruct (discovery W maxCompanies st) as [[all|e] st1];
    [|now apply fetch_shaped_nothing].
  cbv zeta.
  destruct (Z.eqb_spec (Z.of_nat (List.length (JS.slice all 0 maxCompanies))) 0)
    as [Hempty|Hsome].
  { apply fetch_shaped_nothing; [reflexivity|]. simpl.
    destruct (JS.slice all 0 maxCompanies); [reflexivity|simpl in Hempty; lia]. }
  assert (Hne : JS.slice all 0 maxCompanies <> [])
    by (intros Hnil; rewrite Hnil in Hsome; simpl in Hsome; lia).
  destruct (fetch_phase W _ st1 Hne) as (lg & s & bs & Htr & Hpre & Hok & Hlog).
  exists lg, s, bs.
  destruct (fetch_loop W (JS.slice all 0 maxCompanies) 0 [] st1)
    as [[cs|e] st2]; simpl in *.
  all: repeat split; auto.
  1: intros _; apply Hok; eauto.
  2: intros [out Hout]; discriminate.
  all: destruct (session st1) as [s0|];
    [ destruct Hlog as (-> & -> & _ & Hs2); auto
    | destruct Hlog as (fu & -> & Hfu & Hcases); right; exists fu;
      repeat split; auto;
      destruct Hcases as [[? ?]|(? & ? & _)]; auto ].
Qed.

End Run.

(** ** Reading a trace *)

Lemma zseq_length (from : Z) (n : nat) : List.length (zseq from n) = n.
Proof. revert from. induction n; intros; simpl; auto. Qed.

Section TraceFacts.

Variable is_call : Event -> bool.

Lemma stretch_quiet (tr : list Event) :
  existsb is_call tr = false -> stretch is_call tr = tr.
Proof.
  induction tr as [|e tr IH]; simpl; [reflexivity|].
  intros H. apply orb_false_elim in H as [He Htr].
  rewrite He. f_equal. now apply IH.
Qed.

Lemma segments_quiet (tr : list Event) :
  existsb is_call tr = false -> segments is_call tr = [].
Proof.
  induction tr as [|e tr IH]; simpl; [reflexivity|].
  intros H. apply orb_false_elim in H as [He Htr].
  rewrite He. now apply IH.
Qed.

Lemma segments_skip (pre tr : list Event) :
  existsb is_call pre = false ->
  segments is_call (pre ++ tr) = segments is_call tr.
Proof.
  induction pre as [|e pre IH]; simpl; [reflexivity|].
  intros H. apply orb_false_elim in H as [He Hpre].
  rewrite He. now apply IH.
Qed.

(** Calls separated by [sep], then a stretch without calls: every gap
    is [sep] alone, and the stretch is what follows the final call. *)
Lemma segments_interspersed (sep : Event) (calls post : list Event) :
  is_call sep = false ->
  forallb is_call calls = true ->
  existsb is_call post = false ->
  Forall (fun gap => gap = [sep])
    (gaps is_call (intersperse sep calls ++ post))
  /\ after_final is_call (intersperse sep calls ++ post)
     = match calls with [] => [] | _ :: _ => post end.
Proof.
  intros Hsep Hcalls Hpost. unfold gaps, after_final.
  induction calls as [|c calls IH].
  - simpl. rewrite segments_quiet by assumption. split; [constructor|reflexivity].
  - simpl in Hcalls. apply andb_prop in Hcalls as [Hc Hrest].
    specialize (IH Hrest). destruct calls as [|c' calls].
    + simpl. rewrite Hc, segments_quiet, stretch_quiet by assumption.
      split; [constructor|reflexivity].
    + rewrite intersperse_cons2.
      cbn [app segments stretch]. rewrite Hc, Hsep.
      destruct IH as [IHgaps IHlast].
      remember (intersperse sep (c' :: calls) ++ post) as rest eqn:Hrest_eq.
      assert (Hhead : stretch is_call rest = []
                      /\ segments is_call rest <> []).
      { subst rest. simpl in Hrest. apply andb_prop in Hrest as [Hc' _].
        destruct calls; simpl; rewrite Hc'; split; congruence. }
      destruct Hhead as [Hstretch Hsegs]. rewrite Hstretch.
      destruct (segments is_call rest) as [|g gs] eqn:Hg; [congruence|].
      split.
      * cbn [removelast]. constructor; [reflexivity|exact IHgaps].
      * exact IHlast.
Qed.

(** The calls of such a trace are the calls that were separated. *)
Lemma filter_interspersed (sep : Event) (calls post : list Event) :
  is_call sep = false ->
  forallb is_call calls = true ->
  existsb is_call post = false ->
  filter is_call (intersperse sep calls ++ post) = calls.
Proof.
  intros Hsep Hcalls Hpost.
  assert (Hquiet : filter is_call post = []).
  { clear Hcalls. induction post as [|e post IH]; [reflexivity|].
    simpl in *. apply orb_false_elim in Hpost as [He Hp].
    rewrite He. now apply IH. }
  induction calls as [|c calls IH]; [exact Hquiet|].
  simpl in Hcalls. apply andb_prop in Hcalls as [Hc Hrest].
  specialize (IH Hrest). destruct calls as [|c' calls].
  - simpl. now rewrite Hc, Hquiet.
  - rewrite intersperse_cons2. cbn [app filter]. rewrite Hc, Hsep.
    now rewrite IH.
Qed.

End TraceFacts.

(** *** The kinds of events of each phase *)

Lemma existsb_excluded (p q : Event -> bool) (l : list Event) :
  (forall e, q e = true -> p e = false) ->
  forallb q l = true -> existsb p l = false.
Proof.
  intros Hpq. induction l as [|e l IH]; simpl; [reflexivity|].
  intros H. apply andb_prop in H as [He Hl].
  now rewrite (Hpq e He), IH.
Qed.

Lemma forallb_intersperse (q : Event -> bool) (sep : Event) (l : list Event) :
  q sep = true -> forallb q l = true -> forallb q (intersperse sep l) = true.
Proof.
  intros Hsep. induction l as [|x l IH]; simpl; [reflexivity|].
  intros H. apply andb_prop in H as [Hx Hl].
  destruct l as [|y l]; simpl.
  - now rewrite Hx.
  - rewrite Hx, Hsep. simpl. apply IH, Hl.
Qed.

Lemma forallb_search_events (hitsPerPage page : Z) (k : nat) :
  forallb is_search (search_events hitsPerPage page k) = true.
Proof.
  unfold search_events. revert page.
  induction k as [|k IH]; intros page; simpl; auto.
Qed.

Lemma forallb_weaken (p q : Event -> bool) (l : list Event) :
  (forall e, p e = true -> q e = true) ->
  forallb p l = true -> forallb q l = true.
Proof.
  intros Hpq. induction l as [|e l IH]; simpl; [reflexivity|].
  intros H. apply andb_prop in H as [He Hl].
  now rewrite (Hpq e He), IH.
Qed.

Lemma discovery_events_kind (hitsPerPage : Z) (k : nat) (tail : list Event) :
  tail = [] \/ (tail = [EvSleep 1000] /\ k <> 0%nat) ->
  forallb is_discovery_event (discovery_events hitsPerPage k tail) = true.
Proof.
  intros Htail. unfold discovery_events. rewrite forallb_app.
  rewrite forallb_intersperse; [|reflexivity|].
  - destruct Htail as [->|[-> _]]; reflexivity.
  - apply (forallb_weaken is_search); [|apply forallb_search_events].
    intros e He. unfold is_discovery_event. now rewrite He.
Qed.

Lemma forallb_fetch_batches (s : Session) (bs : list (list Z)) :
  forallb is_fetch (map (fetch_event s) bs) = true.
Proof. induction bs; simpl; auto. Qed.

Lemma fetch_events_kind (s : Session) (bs : list (list Z)) :
  forallb is_fetch_phase_event (fetch_events s bs) = true.
Proof.
  unfold fetch_events. apply forallb_intersperse; [reflexivity|].
  apply (forallb_weaken is_fetch); [|apply forallb_fetch_batches].
  intros e He. unfold is_fetch_phase_event. now rewrite He.
Qed.

Lemma login_events_kind (followups : list Event) :
  forallb is_login_followup followups = true ->
  forallb is_login_event (EvGetLoginPage :: followups) = true.
Proof.
  intros H. simpl. apply (forallb_weaken is_login_followup); [|exact H].
  intros e He. unfold is_login_event. rewrite He. apply orb_true_r.
Qed.

(** *** Batches and sessions read back from a trace *)

Lemma fetched_batches_app (l1 l2 : list Event) :
  fetched_batches (l1 ++ l2) = fetched_batches l1 ++ fetched_batches l2.
Proof.
  induction l1 as [|e l1 IH]; simpl; [reflexivity|].
  destruct e; simpl; now rewrite IH.
Qed.

Lemma fetched_batches_none (l : list Event) :
  existsb is_fetch l = false -> fetched_batches l = [].
Proof.
  induction l as [|e l IH]; simpl; [reflexivity|].
  destruct e; simpl; auto; discriminate.
Qed.

Lemma fetched_batches_fetch_events (s : Session) (bs : list (list Z)) :
  fetched_batches (fetch_events s bs) = bs.
Proof.
  unfold fetch_events. induction bs as [|b bs IH]; [reflexivity|].
  destruct bs as [|b' bs]; [reflexivity|].
  rewrite map_cons, map_cons, intersperse_cons2, <- map_cons.
  cbn [fetched_batches fetch_event]. now rewrite IH.
Qed.

Lemma fetch_sessions_app (l1 l2 : list Event) :
  fetch_sessions (l1 ++ l2) = fetch_sessions l1 ++ fetch_sessions l2.
Proof.
  induction l1 as [|e l1 IH]; simpl; [reflexivity|].
  destruct e; simpl; now rewrite IH.
Qed.

Lemma fetch_sessions_none (l : list Event) :
  existsb is_fetch l = false -> fetch_sessions l = [].
Proof.
  induction l as [|e l IH]; simpl; [reflexivity|].
  destruct e; simpl; auto; discriminate.
Qed.

Lemma fetch_sessions_fetch_events (s : Session) (bs : list (list Z)) :
  fetch_sessions (fetch_events s bs) = map (fun _ => s) bs.
Proof.
  unfold fetch_events. induction bs as [|b bs IH]; [reflexivity|].
  destruct bs as [|b' bs]; [destruct s; reflexivity|].
  rewrite map_cons, map_cons, intersperse_cons2, <- map_cons.
  cbn [fetch_sessions fetch_event]. rewrite IH. destruct s; reflexivity.
Qed.

Section RunView.

Variable W : World.

(** The trace of a run from a fresh trace, phase by phase. *)
Lemma run_view (maxCompanies : Z) (s0 : option Session) :
  exists k tail lg s bs,
    trace (snd (extractData W maxCompanies (start s0)))
    = discovery_events (Z.min maxCompanies 100) k tail
      ++ lg ++ fetch_events s bs
    /\ (tail = [] \/ (tail = [EvSleep 1000] /\ k <> 0%nat))
    /\ (respects_hitsPerPage W -> tail = [])
    /\ Forall (fun b => (1 <= List.length b <= 20)%nat) bs
    /\ match s0 with
       | Some s0 =>
           lg = [] /\ (bs = [] \/ s = s0)
           /\ session (snd (extractData W maxCompanies (start (Some s0))))
              = Some s0
       | None =>
           (lg = [] /\ bs = []
            /\ session (snd (extractData W maxCompanies (start None))) = None)
           \/ (exists followups,
                 lg = EvGetLoginPage :: followups
                 /\ forallb is_login_followup followups = true
                 /\ ((bs <> []
                      /\ session (snd (extractData W maxCompanies (start None)))
                         = Some s)
                     \/ (bs = []
                         /\ session
                              (snd (extractData W maxCompanies (start None)))
                            = None)))
       end.
Proof.
  destruct (discovery_phase W maxCompanies (start s0))
    as (k & tail & Hst & Htail & Hwell & _).
  destruct (run_fetch_shape W maxCompanies (start s0))
    as (lg & s & bs & Htr & Hbs & Hlog).
  rewrite Hst in Htr, Hlog. simpl in Htr, Hlog.
  exists k, tail, lg, s, bs. repeat split; auto.
  - destruct (fst (discovery W maxCompanies (start s0))).
    + destruct Hbs as [Hpre _].
      apply (prefix_of_Forall _ _ _ Hpre), chunks_sizes.
    + subst bs. constructor.
  - destruct s0; exact Hlog.
Qed.

End RunView.

(** ** The claims about a run *)

Lemma login_part_kind (lg : list Event) :
  login_part lg -> forallb is_login_event lg = true.
Proof.
  intros [->|(fu & -> & Hfu)]; [reflexivity|now apply login_events_kind].
Qed.

Lemma phases_no_fetch_before (hitsPerPage : Z) (k : nat)
    (tail lg : list Event) :
  tail = [] \/ (tail = [EvSleep 1000] /\ k <> 0%nat) ->
  login_part lg ->
  existsb is_fetch (discovery_events hitsPerPage k tail ++ lg) = false.
Proof.
  intros Htail Hlg. rewrite existsb_app.
  rewrite (existsb_excluded is_fetch is_discovery_event);
    [|now intros []|now apply discovery_events_kind].
  rewrite (existsb_excluded is_fetch is_login_event);
    [reflexivity|now intros []|now apply login_part_kind].
Qed.

Lemma phases_fetched_batches (hitsPerPage : Z) (k : nat)
    (tail lg : list Event) (s : Session) (bs : list (list Z)) :
  tail = [] \/ (tail = [EvSleep 1000] /\ k <> 0%nat) ->
  login_part lg ->
  fetched_batches
    (discovery_events hitsPerPage k tail ++ lg ++ fetch_events s bs) = bs
  /\ fetch_sessions
       (discovery_events hitsPerPage k tail ++ lg ++ fetch_events s bs)
     = map (fun _ => s) bs.
Proof.
  intros Htail Hlg.
  pose proof (phases_no_fetch_before hitsPerPage k tail lg Htail Hlg) as Hnone.
  rewrite app_assoc, fetched_batches_app, fetch_sessions_app.
  rewrite fetched_batches_none, fetch_sessions_none by assumption.
  simpl. split.
  - apply fetched_batches_fetch_events.
  - apply fetch_sessions_fetch_events.
Qed.

Lemma filter_none (p : Event -> bool) (l : list Event) :
  existsb p l = false -> filter p l = [].
Proof.
  induction l as [|e l IH]; simpl; [reflexivity|].
  intros H. apply orb_false_elim in H as [He Hl]. now rewrite He, IH.
Qed.


Lemma prefix_of_concat {A : Type} (l1 l2 : list (list A)) :
  prefix_of l1 l2 -> prefix_of (List.concat l1) (List.concat l2).
Proof. intros [rest ->]. exists (List.concat rest). apply concat_app. Qed.


Section Claims.

Variable W : World.

(** C1.  With a target of zero the page count is [NaN], the page loop
    is not entered, and [extractData] returns the empty list leaving
    the extractor as it found it: not a single request is made, to
    discovery, to the fetch endpoint or to anything else. *)
Theorem C1_zero_target_returns_empty_without_calls (st : State) :
  JS.ceil_div 0 (Z.min 0 100) = NaN
  /\ extractData W 0 st = (Ok [], st)
  /\ trace (snd (extractData W 0 initial)) = [].
Proof.
  assert (H : forall st0, extractData W 0 st0 = (Ok [], st0)).
  { intros st0. rewrite extractData_phases. unfold discovery.
    now rewrite discover_loop_step. }
  split; [reflexivity|]. split; [apply H|now rewrite H].
Qed.

(** C9.  Every identifier list sent to the fetch endpoint during a run
    has between one and twenty identifiers. *)
Theorem C9_every_batch_has_1_to_20_ids (maxCompanies : Z)
    (s0 : option Session) :
  Forall (fun batch => (1 <= List.length batch <= 20)%nat)
    (fetched_batches (trace (snd (extractData W maxCompanies (start s0))))).
Proof.
  destruct (run_view W maxCompanies s0)
    as (k & tail & lg & s & bs & Htr & Htail & _ & Hsizes & Hlog).
  rewrite Htr.
  assert (Hlg : login_part lg).
  { destruct s0 as [s0|].
    - destruct Hlog as (-> & _). now left.
    - destruct Hlog as [(-> & _)|(fu & -> & Hfu & _)]; [now left|].
      right. eauto. }
  now rewrite (proj1 (phases_fetched_batches _ k tail lg s bs Htail Hlg)).
Qed.


Lemma fetch_events_start (s : Session) (bs : list (list Z)) :
  match fetch_events s bs with
  | e :: _ => is_sleep e
  | [] => false
  end = false.
Proof. unfold fetch_events. destruct bs as [|b [|b' bs]]; reflexivity. Qed.

Lemma run_timer_part (maxCompanies : Z) (s0 : option Session) :
  exists k tail lg s bs,
    trace (snd (extractData W maxCompanies (start s0)))
    = discovery_events (Z.min maxCompanies 100) k tail
      ++ lg ++ fetch_events s bs
    /\ (tail = [] \/ (tail = [EvSleep 1000] /\ k <> 0%nat))
    /\ (respects_hitsPerPage W -> tail = [])
    /\ login_part lg
    /\ (tail = [EvSleep 1000]
        <-> k <> 0%nat
            /\ (exists found,
                   fst (discovery W maxCompanies (start s0)) = Ok found
                   /\ maxCompanies <= Z.of_nat (List.length found))
            /\ JS.ltb (Z.of_nat k)
                 (JS.ceil_div maxCompanies (Z.min maxCompanies 100)) = true).
Proof.
  destruct (discovery_phase W maxCompanies (start s0))
    as (k & tail & Hst & Htail & Hwell & Hearly).
  destruct (run_fetch_shape W maxCompanies (start s0))
    as (lg & s & bs & Htr & _ & Hlog).
  rewrite Hst in Htr, Hlog. simpl in Htr, Hlog.
  exists k, tail, lg, s, bs.
  split; [exact Htr|]. split; [exact Htail|]. split; [exact Hwell|].
  split; [|exact Hearly].
  destruct s0 as [s0|].
  - destruct Hlog as (-> & _). now left.
  - destruct Hlog as [(-> & _)|(fu & -> & Hfu & _)]; [now left|].
    right. eauto.
Qed.

(** X15.  The timers of a run.  In every run exactly one timer of
    1000 ms lies between two consecutive discovery requests and exactly
    one timer of 2000 ms between two consecutive batches, and nothing at
    all follows the final batch.  When every discovery reply carries
    at most the number of hits asked for, no timer follows the final
    discovery request.  In general a timer follows the final discovery
    request exactly when discovery was left with the target reached
    before the last page of the computed page count was requested. *)
Theorem timers_lie_between_calls (maxCompanies : Z)
    (s0 : option Session) :
  let tr := trace (snd (extractData W maxCompanies (start s0))) in
  delay_between is_search 1000 tr
  /\ delay_between is_fetch 2000 tr
  /\ after_final is_fetch tr = []
  /\ (respects_hitsPerPage W -> delayed_after_final is_search tr = false)
  /\ (delayed_after_final is_search tr = true
      <-> filter is_search tr <> []
          /\ (exists found,
                 fst (discovery W maxCompanies (start s0)) = Ok found
                 /\ maxCompanies <= Z.of_nat (List.length found))
          /\ JS.ltb (Z.of_nat (List.length (filter is_search tr)))
               (JS.ceil_div maxCompanies (Z.min maxCompanies 100)) = true).
Proof.
  destruct (run_timer_part maxCompanies s0)
    as (k & tail & lg & s & bs & Htr & Htail & Hwell & Hlg & Hearly).
  cbv zeta. rewrite Htr. clear Htr.
  assert (Hpost : existsb is_search (tail ++ lg ++ fetch_events s bs) = false).
  { rewrite !existsb_app.
    rewrite (existsb_excluded is_search is_login_event lg);
      [|now intros []|now apply login_part_kind].
    rewrite (existsb_excluded is_search is_fetch_phase_event
               (fetch_events s bs));
      [|now intros []|apply fetch_events_kind].
    destruct Htail as [->|[-> _]]; reflexivity. }
  destruct (segments_interspersed is_search (EvSleep 1000)
              (search_events (Z.min maxCompanies 100) 0 k)
              (tail ++ lg ++ fetch_events s bs) eq_refl
              (forallb_search_events _ _ _) Hpost) as [Hgaps Hlast].
  destruct (segments_interspersed is_fetch (EvSleep 2000)
              (map (fetch_event s) bs) [] eq_refl
              (forallb_fetch_batches _ _) eq_refl) as [Fgaps Flast].
  pose proof (phases_no_fetch_before (Z.min maxCompanies 100) k tail lg
                Htail Hlg) as Hquiet.
  assert (Hsearch_form :
    discovery_events (Z.min maxCompanies 100) k tail
      ++ lg ++ fetch_events s bs
    = intersperse (EvSleep 1000) (search_events (Z.min maxCompanies 100) 0 k)
        ++ tail ++ lg ++ fetch_events s bs)
    by (unfold discovery_events; now rewrite <- app_assoc).
  assert (Hfetch_form :
    segments is_fetch
      (discovery_events (Z.min maxCompanies 100) k tail
         ++ lg ++ fetch_events s bs)
    = segments is_fetch
        (intersperse (EvSleep 2000) (map (fetch_event s) bs) ++ []))
    by (rewrite app_assoc, segments_skip by exact Hquiet;
        now rewrite app_nil_r).
  assert (Hquiet_start :
    match lg ++ fetch_events s bs with
    | e :: _ => is_sleep e
    | [] => false
    end = false).
  { destruct Hlg as [->|(fu & -> & _)]; [|reflexivity].
    apply fetch_events_start. }
  assert (Hdelayed :
    delayed_after_final is_search
      (discovery_events (Z.min maxCompanies 100) k tail
         ++ lg ++ fetch_events s bs) = true
    <-> tail = [EvSleep 1000]).
  { unfold delayed_after_final. rewrite Hsearch_form, Hlast.
    destruct Htail as [->|[-> Hk]].
    - cbn [app].
      destruct (search_events (Z.min maxCompanies 100) 0 k);
        [split; discriminate|].
      rewrite Hquiet_start. split; discriminate.
    - destruct k as [|k]; [congruence|]. split; reflexivity. }
  split; [|split; [|split; [|split]]].
  - unfold delay_between. rewrite Hsearch_form. exact Hgaps.
  - unfold delay_between, gaps. rewrite Hfetch_form. exact Fgaps.
  - unfold after_final in *. rewrite Hfetch_form, Flast.
    now destruct (map (fetch_event s) bs).
  - intros Hresp.
    apply not_true_is_false. intros Hd.
    apply Hdelayed in Hd. rewrite (Hwell Hresp) in Hd. discriminate Hd.
  - rewrite Hdelayed, Hearly, Hsearch_form.
    rewrite (filter_interspersed is_search (EvSleep 1000) _ _ eq_refl
               (forallb_search_events _ _ _) Hpost).
    unfold search_events at 2. rewrite length_map, zseq_length.
    assert (Hk : k <> 0%nat
                 <-> search_events (Z.min maxCompanies 100) 0 k <> []).
    { unfold search_events. destruct k; simpl; split; congruence. }
    now rewrite Hk.
Qed.




Lemma ceil_div_same (n : Z) : n <> 0 -> JS.ceil_div n n = Int 1.
Proof.
  intros Hn. unfold JS.ceil_div.
  destruct (Z.eqb_spec n 0); [contradiction|].
  f_equal. rewrite Z.div_opp_l_z by (auto; apply Z_mod_same_full).
  rewrite Z_div_same_full by assumption. reflexivity.
Qed.

Lemma discovery_single_page (n : Z) (st : State) :
  1 <= n <= 100 ->
  snd (discovery W n st)
  = {| session := session st; trace := trace st ++ [EvSearch 0 n] |}.
Proof.
  intros Hn. unfold discovery.
  generalize (numPages_finite n).
  rewrite Z.min_l by lia. rewrite ceil_div_same by lia. intros Hfin.
  rewrite discover_loop_step. unfold loop_cond. cbn [JS.ltb List.length].
  destruct (Z.ltb_spec 0 1); [|lia].
  destruct (Z.ltb_spec (Z.of_nat 0) n); [|simpl in *; lia].
  cbn [andb].
  destruct (fetchCompanyIds W 0 n st) as [[ids|e] st1] eqn:Hids;
    apply fetchCompanyIds_effect in Hids; subst st1; [|reflexivity].
  rewrite discover_loop_step. reflexivity.
Qed.

Lemma discovery_two_pages (st : State) (ids0 : list Z) (st1 : State) :
  fetchCompanyIds W 0 100 st = (Ok ids0, st1) ->
  Z.of_nat (List.length ids0) < 150 ->
  discovery W 150 st
  = match fetchCompanyIds W 1 100 (after_sleep 1000 st1) with
    | (Ok ids1, st2) => (Ok (ids0 ++ ids1), st2)
    | (Throw e, st2) => (Throw e, st2)
    end.
Proof.
  intros Hids0 Hlen. unfold discovery.
  generalize (numPages_finite 150).
  change (Z.min 150 100) with 100.
  change (JS.ceil_div 150 100) with (Int 2). intros Hfin.
  rewrite discover_loop_step.
  change (loop_cond 150 (Int 2) 0 []) with true. cbv iota.
  rewrite Hids0.
  change (JS.ltb 0 (JS.pred (Int 2))) with true. cbv iota.
  rewrite discover_loop_step. unfold loop_cond.
  change (JS.ltb (0 + 1) (Int 2)) with true.
  change ([] ++ ids0) with ids0.
  destruct (Z.ltb_spec (Z.of_nat (List.length ids0)) 150); [|lia].
  cbn [andb]. change (0 + 1) with 1.
  destruct (fetchCompanyIds W 1 100 (after_sleep 1000 st1))
    as [[ids1|e] st2]; [|reflexivity].
  change (JS.ltb 1 (JS.pred (Int 2))) with false. cbv iota.
  rewrite discover_loop_step. reflexivity.
Qed.

Lemma discovery_first_page_suffices (st : State) (ids0 : list Z)
    (st1 : State) :
  fetchCompanyIds W 0 100 st = (Ok ids0, st1) ->
  150 <= Z.of_nat (List.length ids0) ->
  discovery W 150 st = (Ok ids0, after_sleep 1000 st1).
Proof.
  intros Hids0 Hlen. unfold discovery.
  generalize (numPages_finite 150).
  change (Z.min 150 100) with 100.
  change (JS.ceil_div 150 100) with (Int 2). intros Hfin.
  rewrite discover_loop_step.
  change (loop_cond 150 (Int 2) 0 []) with true. cbv iota.
  rewrite Hids0.
  change (JS.ltb 0 (JS.pred (Int 2))) with true. cbv iota.
  rewrite discover_loop_step. unfold loop_cond.
  change (JS.ltb (0 + 1) (Int 2)) with true.
  change ([] ++ ids0) with ids0.
  destruct (Z.ltb_spec (Z.of_nat (List.length ids0)) 150); [lia|].
  reflexivity.
Qed.

Lemma discovery_first_page_fails (st : State) (e : Error) (st1 : State) :
  fetchCompanyIds W 0 100 st = (Throw e, st1) ->
  discovery W 150 st = (Throw e, st1).
Proof.
  intros Hids0. unfold discovery.
  generalize (numPages_finite 150).
  change (Z.min 150 100) with 100.
  change (JS.ceil_div 150 100) with (Int 2). intros Hfin.
  rewrite discover_loop_step.
  change (loop_cond 150 (Int 2) 0 []) with true. cbv iota.
  now rewrite Hids0.
Qed.

Lemma fetch_shaped_login_part (maxCompanies : Z) d r :
  fetch_shaped maxCompanies d r ->
  exists lg s bs,
    trace (snd r) = trace (snd d) ++ lg ++ fetch_events s bs
    /\ login_part lg
    /\ match fst d with
       | Ok all =>
           prefix_of bs (chunks 20 (JS.slice all 0 maxCompanies))
           /\ ((exists out, fst r = Ok out) ->
               bs = chunks 20 (JS.slice all 0 maxCompanies))
       | Throw _ => bs = []
       end.
Proof.
  intros (lg & s & bs & Htr & Hbs & Hlog).
  exists lg, s, bs. repeat split; auto.
  destruct (session (snd d)).
  - destruct Hlog as (-> & _). now left.
  - destruct Hlog as [(-> & _)|(fu & -> & Hfu & _)]; [now left|].
    right. eauto.
Qed.

Lemma after_discovery_searches (pre lg : list Event) s bs :
  login_part lg ->
  filter is_search (pre ++ lg ++ fetch_events s bs) = filter is_search pre.
Proof.
  intros Hlg. rewrite !filter_app.
  rewrite (filter_none is_search lg).
  2:{ apply (existsb_excluded _ is_login_event); [now intros []|].
      now apply login_part_kind. }
  rewrite (filter_none is_search (fetch_events s bs)).
  2:{ apply (existsb_excluded _ is_fetch_phase_event); [now intros []|].
      apply fetch_events_kind. }
  now rewrite !app_nil_r.
Qed.

Lemma after_discovery_batches (pre lg : list Event) s bs :
  login_part lg ->
  fetched_batches (pre ++ lg ++ fetch_events s bs)
  = fetched_batches pre ++ bs.
Proof.
  intros Hlg. rewrite !fetched_batches_app, fetched_batches_fetch_events.
  rewrite (fetched_batches_none lg); [reflexivity|].
  apply (existsb_excluded _ is_login_event); [now intros []|].
  now apply login_part_kind.
Qed.

(** C4, amended.  For a target between 1 and 100 a run makes exactly
    one discovery request, for page 0 with the target as page size.
    For a target of 150 the first request is for page 0 with page size
    100, and what follows depends on its answer.  When the first page
    arrives with fewer than 150 identifiers, a run makes exactly two
    discovery requests, for pages 0 and 1 with page size 100, and the
    batches it then sends are drawn, in order, from the first 150 of
    the identifiers collected: all of them when the run completes.
    When the first page arrives with 150 identifiers or more, that
    request is the only discovery request, and the batches are drawn
    from the first 150 identifiers of that page.  When the first
    request fails, the run fails with its error after that single
    request. *)
Theorem C4_pages_requested_and_truncation (s0 : option Session) :
  (forall n,
      1 <= n <= 100 ->
      filter is_search (trace (snd (extractData W n (start s0))))
      = [EvSearch 0 n])
  /\ (forall ids0 st1,
        fetchCompanyIds W 0 100 (start s0) = (Ok ids0, st1) ->
        Z.of_nat (List.length ids0) < 150 ->
        let run := extractData W 150 (start s0) in
        filter is_search (trace (snd run))
        = [EvSearch 0 100; EvSearch 1 100]
        /\ (forall ids1 st2,
              fetchCompanyIds W 1 100 (after_sleep 1000 st1) = (Ok ids1, st2) ->
              prefix_of (List.concat (fetched_batches (trace (snd run))))
                (firstn 150 (ids0 ++ ids1))
              /\ ((exists out, fst run = Ok out) ->
                  List.concat (fetched_batches (trace (snd run)))
                  = firstn 150 (ids0 ++ ids1))))
  /\ (forall ids0 st1,
        fetchCompanyIds W 0 100 (start s0) = (Ok ids0, st1) ->
        150 <= Z.of_nat (List.length ids0) ->
        let run := extractData W 150 (start s0) in
        filter is_search (trace (snd run)) = [EvSearch 0 100]
        /\ prefix_of (List.concat (fetched_batches (trace (snd run))))
             (firstn 150 ids0)
        /\ ((exists out, fst run = Ok out) ->
            List.concat (fetched_batches (trace (snd run)))
            = firstn 150 ids0))
  /\ (forall e st1,
        fetchCompanyIds W 0 100 (start s0) = (Throw e, st1) ->
        extractData W 150 (start s0) = (Throw e, st1)
        /\ filter is_search (trace st1) = [EvSearch 0 100]).
Proof.
  split; [|split; [|split]].
  3:{ intros ids0 st1 Hids0 Hlen. cbv zeta.
      destruct (fetch_shaped_login_part _ _ _
                  (run_fetch_shape W 150 (start s0)))
        as (lg & s & bs & Htr & Hlg & Hbs).
      rewrite (discovery_first_page_suffices _ _ _ Hids0 Hlen) in Htr, Hbs.
      pose proof (fetchCompanyIds_effect W _ _ _ _ _ Hids0) as Hst1.
      subst st1. rewrite Htr. clear Htr.
      cbn [fst snd trace after_sleep sleep emit start] in *.
      rewrite after_discovery_searches, after_discovery_batches by assumption.
      split; [reflexivity|].
      cbn [fetched_batches app].
      rewrite slice_truncate in Hbs by lia.
      change (Z.to_nat 150) with 150%nat in Hbs.
      destruct Hbs as [Hpre Hok]. split.
      - pose proof (prefix_of_concat _ _ Hpre) as Hcat.
        now rewrite (concat_chunks 19) in Hcat.
      - intros Hdone. rewrite (Hok Hdone). apply (concat_chunks 19). }
  3:{ intros e st1 Hids0.
      pose proof (discovery_first_page_fails _ _ _ Hids0) as Hd.
      rewrite extractData_phases, Hd. split; [reflexivity|].
      apply fetchCompanyIds_effect in Hids0. now subst st1. }
  - intros n Hn.
    destruct (fetch_shaped_login_part _ _ _ (run_fetch_shape W n (start s0)))
      as (lg & s & bs & Htr & Hlg & _).
    rewrite Htr, discovery_single_page by assumption.
    now rewrite after_discovery_searches.
  - intros ids0 st1 Hids0 Hlen. cbv zeta.
    destruct (fetch_shaped_login_part _ _ _ (run_fetch_shape W 150 (start s0)))
      as (lg & s & bs & Htr & Hlg & Hbs).
    rewrite (discovery_two_pages _ _ _ Hids0 Hlen) in Htr, Hbs.
    pose proof (fetchCompanyIds_effect W _ _ _ _ _ Hids0) as Hst1.
    subst st1. rewrite Htr. clear Htr.
    destruct (fetchCompanyIds W 1 100 _) as [[ids1|e] st2] eqn:Hids1;
      pose proof (fetchCompanyIds_effect W _ _ _ _ _ Hids1) as Hst2;
      subst st2; cbn [fst snd trace after_sleep sleep emit start] in *.
    + rewrite after_discovery_searches, after_discovery_batches by assumption.
      split; [reflexivity|].
      intros ids1' st2' Heq. inversion Heq; subst ids1'. clear Heq.
      cbn [fetched_batches app].
      rewrite slice_truncate in Hbs by lia.
      change (Z.to_nat 150) with 150%nat in Hbs.
      destruct Hbs as [Hpre Hok]. split.
      * pose proof (prefix_of_concat _ _ Hpre) as Hcat.
        now rewrite (concat_chunks 19) in Hcat.
      * intros Hdone. rewrite (Hok Hdone). apply (concat_chunks 19).
    + rewrite after_discovery_searches by assumption.
      split; [reflexivity|]. intros ids1' st2' Heq. discriminate Heq.
Qed.


(** C6, amended.  When the login page arrives and holds no token
    matching the pattern, [login] fails right after that single GET: no
    sign-in POST is made and the session stays as it was.  The error is
    a plain [Error] whose message is [Login failed: ] followed by the
    text of the cause: the status error of axios when the page was not
    served with a 2xx status; otherwise the extraction failure when
    the body is text, and the [TypeError] of calling [match] when axios
    parsed the body into something that is not a string. *)
Theorem C6_login_fails_without_token_before_any_post (st : State)
    (page : AxiosResponse (Payload string)) :
  login_page_reply W (trace st ++ [EvGetLoginPage]) = Ok page ->
  has_no_token (data page) ->
  login W st
  = (Throw (login_failed (no_token_cause page)),
     {| session := session st; trace := trace st ++ [EvGetLoginPage] |})
  /\ existsb is_sign_in (trace st ++ [EvGetLoginPage])
     = existsb is_sign_in (trace st)
  /\ err_name (login_failed (no_token_cause page)) = "Error"%string
  /\ (validateStatus_default (status page) = true ->
      forall body,
        data page = Expected body ->
        login_failed (no_token_cause page) = login_failed_no_token).
Proof.
  intros Hpage Hnone.
  assert (Hquiet : existsb is_sign_in (trace st ++ [EvGetLoginPage])
                   = existsb is_sign_in (trace st))
    by (rewrite existsb_app; simpl; now rewrite !orb_false_r).
  unfold login, try_catch, axios_request, emit, throw, use, no_token_cause.
  unfold bind. cbv beta iota. cbn [trace session]. rewrite Hpage.
  destruct (validateStatus_default (status page)).
  - destruct (data page) as [body|msg]; cbn [has_no_token] in Hnone.
    + unfold ret. rewrite Hnone. cbn [is_empty].
      split; [reflexivity|]. split; [exact Hquiet|].
      split; reflexivity.
    + split; [reflexivity|]. split; [exact Hquiet|].
      split; [reflexivity|]. intros _ body Hbody. discriminate Hbody.
  - split; [reflexivity|]. split; [exact Hquiet|].
    split; [reflexivity|]. discriminate.
Qed.

End Claims.

Lemma honest_respects_hitsPerPage : respects_hitsPerPage Scenario.honest.
Proof.
  intros st page h ids st' Hh.
  unfold fetchCompanyIds, try_catch, axios_request, emit, ret, throw.
  unfold bind. cbv beta iota. cbn [trace session Scenario.honest
    Scenario.servers algolia_reply].
  rewrite last_last. cbn.
  intros H. inversion H; subst. rewrite length_map, length_map, zseq_length.
  lia.
Qed.


Example honest_45_identifiers :
  (exists cs, fst (fetch_loop Scenario.honest (zseq 1 45) 0 [] initial) = Ok cs)
  /\ map (@List.length Z)
       (fetched_batches
          (trace (snd (fetch_loop Scenario.honest (zseq 1 45) 0 [] initial))))
     = [20; 20; 5]%nat.
Proof. split; [eexists|]; vm_compute; reflexivity. Qed.

Lemma C4_witness :
  filter is_search (trace (snd (extractData Scenario.honest 3 (start None))))
  = [EvSearch 0 3]
  /\ filter is_search
       (trace (snd (extractData Scenario.honest 150 (start None))))
     = [EvSearch 0 100; EvSearch 1 100]
  /\ List.concat
       (fetched_batches
          (trace (snd (extractData Scenario.honest 150 (start None)))))
     = firstn 150 (zseq 0 100 ++ zseq 1000 100).
Proof.
  destruct (C4_pages_requested_and_truncation Scenario.honest None)
    as (Hone & Htwo & _ & _).
  split; [apply Hone; lia|].
  destruct (Htwo (zseq 0 100) (snd (fetchCompanyIds Scenario.honest 0 100 (start None))))
    as [Hpages Hids].
  - vm_compute. reflexivity.
  - vm_compute. reflexivity.
  - split; [exact Hpages|].
    destruct (Hids (zseq 1000 100)
                (snd (fetchCompanyIds Scenario.honest 1 100
                        (after_sleep 1000
                           (snd (fetchCompanyIds Scenario.honest 0 100
                                   (start None)))))))
      as [_ Hall].
    + vm_compute. reflexivity.
    + apply Hall. eexists. vm_compute. reflexivity.
Defined.


Lemma C6_witness :
  login Scenario.tokenless initial
  = (Throw
       (login_failed
          (no_token_cause
             (mkResponse 200 (val ["sid=1; Path=/"%string])
                (Expected Scenario.page_without_token)))),
     {| session := session initial;
        trace := trace initial ++ [EvGetLoginPage] |})
  /\ existsb is_sign_in (trace initial ++ [EvGetLoginPage])
     = existsb is_sign_in (trace initial)
  /\ err_name
       (login_failed
          (no_token_cause
             (mkResponse 200 (val ["sid=1; Path=/"%string])
                (Expected Scenario.page_without_token))))
     = "Error"%string
  /\ (validateStatus_default
        (status
           (mkResponse 200 (val ["sid=1; Path=/"%string])
              (Expected Scenario.page_without_token))) = true ->
      forall body,
        data (mkResponse 200 (val ["sid=1; Path=/"%string])
                (Expected Scenario.page_without_token)) = Expected body ->
        login_failed
          (no_token_cause
             (mkResponse 200 (val ["sid=1; Path=/"%string])
                (Expected Scenario.page_without_token)))
        = login_failed_no_token).
Proof.
  apply (C6_login_fails_without_token_before_any_post Scenario.tokenless
           initial
           (mkResponse 200 (val ["sid=1; Path=/"%string])
              (Expected Scenario.page_without_token))).
  - reflexivity.
  - reflexivity.
Defined.

(** C5 on a run of the honest servers for three records: the session
    is acquired after discovery, right before the single batch, and is
    the one the batch presents and the run ends with. *)
Example session_acquired_before_the_first_batch :
  snd (extractData Scenario.honest 3 initial)
  = {| session :=
         Some {| cookies := "sid=1; auth=2"; csrfToken := "portal" |};
       trace :=
         [EvSearch 0 3; EvGetLoginPage; EvPostSignIn "idp" "sid=1";
          EvGetWaas "sid=1; auth=2";
          EvFetch [0; 1; 2] "portal" "sid=1; auth=2"] |}.
Proof. vm_compute. reflexivity. Qed.

(** A login page that axios parsed into a number: [login] fails after
    the GET with the wrapped [TypeError]. *)
Example login_on_a_page_that_is_not_text :
  login Scenario.not_a_page initial
  = (Throw
       (Error_new
          "Login failed: TypeError: loginPageResponse.data.match is not a function"),
     {| session := None; trace := [EvGetLoginPage] |}).
Proof. reflexivity. Qed.

(** C6 as stated fails: on a login page without token [login] does
    fail before any POST, but with the plain [Error] that wraps the
    extraction failure, not with [AuthError] and its message. *)
Lemma C6_error_is_not_AuthError :
  csrf_match Scenario.page_without_token = None
  /\ fst (login Scenario.tokenless initial) = Throw login_failed_no_token
  /\ fst (login Scenario.tokenless initial)
     <> Throw AuthError_missing_csrf_token.
Proof.
  split; [reflexivity|]. split; [reflexivity|].
  vm_compute. discriminate.
Qed.

Lemma timers_lie_between_calls_witness :
  let tr := trace (snd (extractData Scenario.honest 150 (start None))) in
  delay_between is_search 1000 tr
  /\ delay_between is_fetch 2000 tr
  /\ after_final is_fetch tr = []
  /\ delayed_after_final is_search tr = false.
Proof.
  destruct (timers_lie_between_calls Scenario.honest 150 None)
    as (Hs & Hf & Hend & Hlast & _).
  split; [exact Hs|]. split; [exact Hf|]. split; [exact Hend|].
  apply Hlast, honest_respects_hitsPerPage.
Defined.

(** C4 as stated fails: the first page arrives with 150 identifiers,
    the target of 150 is reached, and page 0 is the only page the run
    requests. *)
Lemma C4_one_page_when_the_first_reaches_the_target :
  let tr := trace (snd (extractData Scenario.oversized 150 (start None))) in
  filter is_search tr = [EvSearch 0 100]
  /\ filter is_search tr <> [EvSearch 0 100; EvSearch 1 100].
Proof. vm_compute. split; [reflexivity|discriminate]. Qed.

(** C7, a defect of the code.  The timer after a discovery request is
    guarded by the page index alone, [page < numPages - 1], and not by
    the other half of the loop condition: here the first page arrives
    with 150 identifiers, the target of 150 is reached and discovery
    stops after that single request, and yet the program waits 1000 ms
    right after it, before it goes on to log in and fetch.  The batch
    loop, whose guard [i + batchSize < length] is exact, has no such
    wait. *)
Lemma C7_delay_after_early_stop :
  let tr := trace (snd (extractData Scenario.oversized 150 (start None))) in
  filter is_search tr = [EvSearch 0 100]
  /\ after_final is_search tr <> []
  /\ hd_error (after_final is_search tr) = Some (EvSleep 1000)
  /\ delayed_after_final is_search tr = true.
Proof. vm_compute. repeat split. discriminate. Qed.

(** * Further properties of the code *)

(** ** The token pattern *)

Lemma strip_prefix_Some (p s rest : string) :
  strip_prefix p s = Some rest -> s = (p ++ rest)%string.
Proof.
  revert s. induction p as [|a p IH]; intros s; simpl.
  - intros H. now inversion H.
  - destruct s as [|b s]; [discriminate|].
    destruct (Ascii.eqb_spec a b) as [->|]; [|discriminate].
    intros H. now rewrite (IH _ H).
Qed.

Lemma strip_prefix_app (p rest : string) :
  strip_prefix p (p ++ rest)%string = Some rest.
Proof.
  induction p as [|a p IH]; simpl; [reflexivity|].
  now rewrite Ascii.eqb_refl.
Qed.

Lemma until_dquote_Some (s g : string) :
  until_dquote s = Some g ->
  has_char dquote g = false
  /\ exists post, s = (g ++ String dquote post)%string.
Proof.
  revert g. induction s as [|a s IH]; intros g; simpl; [discriminate|].
  destruct (Ascii.eqb_spec a dquote) as [->|Hne].
  - intros H. inversion H; subst g. split; [reflexivity|]. now exists s.
  - destruct (until_dquote s) as [g'|]; [|discriminate].
    intros H. inversion H; subst g. clear H.
    destruct (IH g' eq_refl) as [Hg' [post ->]].
    split.
    + simpl. rewrite Hg'. now destruct (Ascii.eqb_spec a dquote).
    + now exists post.
Qed.

Lemma until_dquote_app (g post : string) :
  has_char dquote g = false ->
  until_dquote (g ++ String dquote post)%string = Some g.
Proof.
  induction g as [|a g IH]; cbn [append until_dquote has_char].
  - intros _. now rewrite Ascii.eqb_refl.
  - intros H. apply orb_false_elim in H as [Ha Hg].
    now rewrite Ha, IH.
Qed.

Lemma csrf_match_here_Some (s tok : string) :
  csrf_match_here s = Some tok -> exists post, token_occurs s EmptyString tok post.
Proof.
  unfold csrf_match_here.
  destruct (strip_prefix csrf_prefix s) as [rest|] eqn:Hpre; [|discriminate].
  apply strip_prefix_Some in Hpre.
  destruct (until_dquote rest) as [[|a g]|] eqn:Hg; try discriminate.
  intros H. inversion H; subst tok. clear H.
  destruct (until_dquote_Some _ _ Hg) as [Hq [post ->]].
  exists post. repeat split; [exact Hpre|discriminate|exact Hq].
Qed.

Lemma csrf_match_here_occurs (tok post : string) :
  tok <> EmptyString -> has_char dquote tok = false ->
  csrf_match_here (csrf_prefix ++ tok ++ String dquote post)%string = Some tok.
Proof.
  intros Hne Hq. unfold csrf_match_here.
  rewrite strip_prefix_app, until_dquote_app by assumption.
  destruct tok; [congruence|reflexivity].
Qed.

(** X1.  The token matcher accepts exactly the pages that hold the
    pattern: a token it returns occurs in the page behind the literal
    prefix, is not empty, holds no double quote and is closed by one;
    and a page in which such a token occurs anywhere is never answered
    with [null]. *)
Theorem csrf_match_sound_and_complete (body : string) :
  (forall tok,
      csrf_match body = Some tok ->
      exists pre post, token_occurs body pre tok post)
  /\ ((exists pre tok post, token_occurs body pre tok post) ->
      exists tok, csrf_match body = Some tok).
Proof.
  split.
  - induction body as [|a body IH]; intros tok.
    + cbn. discriminate.
    + cbn [csrf_match].
      destruct (csrf_match_here (String a body)) as [g|] eqn:Hhere.
      * intros H. inversion H; subst g.
        destruct (csrf_match_here_Some _ _ Hhere) as [post Hocc].
        now exists EmptyString, post.
      * intros H. destruct (IH _ H) as (pre & post & -> & Hne & Hq).
        exists (String a pre), post. repeat split; auto.
  - intros (pre & tok & post & -> & Hne & Hq).
    induction pre as [|a pre IH].
    + exists tok. cbn [append].
      pose proof (csrf_match_here_occurs tok post Hne Hq) as Hhere.
      destruct (csrf_prefix ++ tok ++ String dquote post)%string eqn:Hs;
        cbn [csrf_match]; now rewrite Hhere.
    + destruct IH as [g Hg]. cbn [append csrf_match].
      destruct (csrf_match_here _); eauto.
Qed.

(** ** Cookies *)


(** ** The configuration *)

(** X3.  When loading the configuration fails, the error lists exactly
    the variables that are not set, each once, in the order of the
    schema; it is not limited to the first one. *)
Theorem config_reports_every_unset_variable (env : Config.ProcessEnv)
    (issues : list Config.ZodIssue) :
  Config.config env = inr issues ->
  issues = map Config.invalid_type (filter (unset env) Config.required_keys)
  /\ issues <> [].
Proof.
  unfold Config.config, Config.configSchema_parse, Config.required_keys, unset.
  cbn [filter].
  destruct (Config.lookup "YC_USERNAME" env);
  destruct (Config.lookup "YC_PASSWORD" env);
  destruct (Config.lookup "ALGOLIA_APP_ID" env);
  destruct (Config.lookup "ALGOLIA_API_KEY" env);
  cbn; intros H; inversion H; split; try reflexivity; discriminate.
Qed.

Lemma config_reports_witness :
  [Config.invalid_type "YC_PASSWORD"; Config.invalid_type "ALGOLIA_API_KEY"]
  = map Config.invalid_type
      (filter (unset [("YC_USERNAME", "u"); ("ALGOLIA_APP_ID", "a")]%string)
         Config.required_keys)
  /\ [Config.invalid_type "YC_PASSWORD"; Config.invalid_type "ALGOLIA_API_KEY"]
     <> [].
Proof.
  apply (config_reports_every_unset_variable
           [("YC_USERNAME", "u"); ("ALGOLIA_APP_ID", "a")]%string).
  reflexivity.
Defined.

(** ** [login] *)

Section Login.

Variable W : World.

Lemma login_error_wrapped (st st' : State) (e : Error) :
  login W st = (Throw e, st') -> exists cause, e = login_failed cause.
Proof.
  unfold login, try_catch.
  match goal with
  | |- context [bind ?m ?k st] => destruct (bind m k st) as [[[]|cause] st1]
  end.
  - discriminate.
  - unfold throw. intros H. inversion H. now exists cause.
Qed.

End Login.

(** ** Replaying the replies of a run *)

Section Replay.

Variable W : World.

Lemma fetchCompanyIds_outcome (page hitsPerPage : Z) (st : State) :
  fst (fetchCompanyIds W page hitsPerPage st)
  = search_outcome W (trace st) page hitsPerPage.
Proof.
  unfold search_outcome, fetchCompanyIds, try_catch, axios_request, emit,
    ret, throw.
  unfold bind. cbv beta iota. cbn [trace session].
  destruct (algolia_reply W (trace st ++ [EvSearch page hitsPerPage]))
    as [r|e]; [|reflexivity].
  destruct (validateStatus_default (status r)); [|reflexivity].
  now destruct (data r).
Qed.

Lemma fetchCompanyDetails_outcome (ids : list Z) (st : State) (s : Session) :
  session st = Some s ->
  fst (fetchCompanyDetails W ids st)
  = fetch_outcome W (trace st) ids (csrfToken s) (cookies s).
Proof.
  intros Hs. destruct st as [sess tr]. cbn [session trace] in *. subst sess.
  now destruct s.
Qed.

Lemma discovered_app (history l1 l2 : list Event) :
  discovered W history (l1 ++ l2)
  = discovered W history l1 ++ discovered W (history ++ l1) l2.
Proof.
  revert history. induction l1 as [|e l1 IH]; intros history.
  - simpl. now rewrite app_nil_r.
  - cbn [app discovered]. rewrite IH, <- !app_assoc. reflexivity.
Qed.

Lemma discovered_quiet (history l : list Event) :
  existsb is_search l = false -> discovered W history l = [].
Proof.
  revert history. induction l as [|e l IH]; intros history; [reflexivity|].
  cbn [existsb discovered]. intros H. apply orb_false_elim in H as [He Hl].
  rewrite IH by assumption. destruct e; try reflexivity; discriminate.
Qed.

Lemma fetched_records_app (history l1 l2 : list Event) :
  fetched_records W history (l1 ++ l2)
  = fetched_records W history l1 ++ fetched_records W (history ++ l1) l2.
Proof.
  revert history. induction l1 as [|e l1 IH]; intros history.
  - simpl. now rewrite app_nil_r.
  - cbn [app fetched_records]. rewrite IH, <- !app_assoc. reflexivity.
Qed.

Lemma fetched_records_quiet (history l : list Event) :
  existsb is_fetch l = false -> fetched_records W history l = [].
Proof.
  revert history. induction l as [|e l IH]; intros history; [reflexivity|].
  cbn [existsb fetched_records]. intros H. apply orb_false_elim in H as [He Hl].
  rewrite IH by assumption. destruct e; try reflexivity; discriminate.
Qed.

Lemma search_events_succ (hitsPerPage page : Z) (k : nat) :
  search_events hitsPerPage page (S k)
  = EvSearch page hitsPerPage :: search_events hitsPerPage (page + 1) k.
Proof. reflexivity. Qed.

(** What the page loop has done when it ends. *)
Lemma discover_loop_result (maxCompanies hitsPerPage : Z) (numPages : num)
    (Hfin : numPages <> Infinity false) (page : Z) (all : list Z)
    (st : State) :
  exists k evs,
    trace (snd (discover_loop W maxCompanies hitsPerPage numPages Hfin
                  page all st))
    = trace st ++ evs
    /\ filter is_search evs = search_events hitsPerPage page k
    /\ forallb is_discovery_event evs = true
    /\ (k <> 0%nat ->
        loop_cond maxCompanies numPages page all = true
        /\ JS.ltb (page + Z.of_nat k - 1) numPages = true)
    /\ match fst (discover_loop W maxCompanies hitsPerPage numPages Hfin
                    page all st) with
       | Ok all' =>
           all' = all ++ discovered W (trace st) evs
           /\ loop_cond maxCompanies numPages (page + Z.of_nat k) all' = false
           /\ (full_pages W -> 0 <= hitsPerPage ->
               Z.of_nat (List.length all')
               = Z.of_nat (List.length all) + Z.of_nat k * hitsPerPage)
       | Throw e =>
           exists pre p,
             evs = pre ++ [EvSearch p hitsPerPage]
             /\ search_outcome W (trace st ++ pre) p hitsPerPage = Throw e
       end.
Proof.
  funelim (discover_loop W maxCompanies hitsPerPage numPages Hfin page all st);
    try rewrite <- Heqcall; clear Heqcall.
  - exists 0%nat, []. cbn [fst snd]. rewrite app_nil_r, Z.add_0_r.
    repeat split; try congruence.
    + now rewrite app_nil_r.
    + exact e.
    + intros _ _. lia.
  - match goal with
    | Hd : fetchCompanyIds _ _ _ _ = _ |- _ =>
        pose proof (fetchCompanyIds_effect _ _ _ _ _ _ Hd) as Hst1;
        pose proof (f_equal fst Hd) as Hout;
        rewrite fetchCompanyIds_outcome in Hout; cbn [fst] in Hout;
        rename Hd into Hids
    end.
    destruct H as (k' & evs' & Htr & Hsearch & Hkind & Hk & Hres).
    set (timer := if JS.ltb page (JS.pred numPages)
                  then [EvSleep 1000] else []).
    assert (Hst2 :
      (if JS.ltb page (JS.pred numPages) then after_sleep 1000 st1 else st1)
      = {| session := session st;
           trace := (trace st ++ [EvSearch page hitsPerPage]) ++ timer |}).
    { subst st1 timer. destruct (JS.ltb page (JS.pred numPages));
        unfold after_sleep; simpl; [reflexivity|now rewrite app_nil_r]. }
    rewrite Hst2 in Htr, Hres |- *. cbn [trace] in Htr, Hres |- *.
    assert (Htimer : existsb is_search timer = false
                     /\ forallb is_discovery_event timer = true)
      by (subst timer; destruct (JS.ltb page (JS.pred numPages)); auto).
    destruct Htimer as [Htimer1 Htimer2].
    exists (S k'), (EvSearch page hitsPerPage :: timer ++ evs').
    split; [|split; [|split; [|split]]].
    + rewrite Htr. rewrite <- !app_assoc. reflexivity.
    + cbn [filter is_search]. rewrite filter_app, Hsearch.
      rewrite (filter_none is_search timer) by assumption.
      reflexivity.
    + cbn [forallb]. rewrite forallb_app, Htimer2, Hkind. reflexivity.
    + intros _. split; [exact Hcond|].
      destruct k' as [|k''].
      * replace (page + Z.of_nat 1 - 1) with page by lia.
        exact (proj1 (andb_prop _ _ Hcond)).
      * replace (page + Z.of_nat (S (S k'')) - 1)
          with (page + 1 + Z.of_nat (S k'') - 1) by lia.
        now apply Hk.
    + match type of Hres with
      | match ?x with _ => _ end => destruct x as [all'|e']
      end.
      * destruct Hres as (Hall & Hexit & Hfull).
        replace (page + Z.of_nat (S k')) with (page + 1 + Z.of_nat k') by lia.
        split; [|split; [exact Hexit|]].
        -- rewrite Hall. cbn [discovered]. rewrite Hout. cbn [ok_or_nil].
           rewrite discovered_app, (discovered_quiet _ timer) by assumption.
           rewrite <- !app_assoc. reflexivity.
        -- intros Hfp Hh. rewrite (Hfull Hfp Hh), length_app.
           pose proof (Hfp _ _ _ _ _ Hh Hids). lia.
      * destruct Hres as (pre & p & -> & Hp).
        exists (EvSearch page hitsPerPage :: timer ++ pre), p.
        split; [cbn [app]; now rewrite app_assoc|].
        rewrite <- Hp. f_equal. rewrite <- !app_assoc. reflexivity.
  - match goal with
    | Hd : fetchCompanyIds _ _ _ _ = _ |- _ =>
        pose proof (fetchCompanyIds_effect _ _ _ _ _ _ Hd) as Hst1;
        pose proof (f_equal fst Hd) as Hout;
        rewrite fetchCompanyIds_outcome in Hout; cbn [fst] in Hout
    end.
    exists 1%nat, [EvSearch page hitsPerPage]. cbn [fst snd].
    subst st1. cbn [trace].
    repeat split; auto.
    + replace (page + Z.of_nat 1 - 1) with page by lia.
      exact (proj1 (andb_prop _ _ Hcond)).
    + exists [], page. rewrite app_nil_r. split; [reflexivity|exact Hout].
Qed.

(** What the batch loop has done when it ends, for an extractor that
    holds a session. *)
Lemma fetch_loop_result (ids : list Z) (i : Z) (acc : list Company)
    (st : State) :
  forall s, session st = Some s ->
  exists evs,
    trace (snd (fetch_loop W ids i acc st)) = trace st ++ evs
    /\ match fst (fetch_loop W ids i acc st) with
       | Ok cs => cs = acc ++ fetched_records W (trace st) evs
       | Throw e =>
           exists pre b,
             evs = pre ++ [fetch_event s b]
             /\ fetch_outcome W (trace st ++ pre) b (csrfToken s) (cookies s)
                = Throw e
       end.
Proof.
  funelim (fetch_loop W ids i acc st); intros s Hs;
    try rewrite <- Heqcall; clear Heqcall.
  - exists []. cbn [fst snd fetched_records]. now rewrite !app_nil_r.
  - match goal with
    | Hd : fetchCompanyDetails _ _ _ = _ |- _ =>
        pose proof (fetchCompanyDetails_logged_in W _ _ s _ _ Hs Hd) as Hst1;
        pose proof (f_equal fst Hd) as Hout;
        rewrite (fetchCompanyDetails_outcome _ _ s Hs) in Hout;
        cbn [fst] in Hout
    end.
    set (b := JS.slice allCompanyIds i (i + batchSize)) in *.
    set (timer := if i + batchSize <? Z.of_nat (List.length allCompanyIds)
                  then [EvSleep 2000] else []).
    assert (Hst2 :
      (if i + batchSize <? Z.of_nat (List.length allCompanyIds)
       then after_sleep 2000 st1 else st1)
      = {| session := Some s;
           trace := (trace st ++ [fetch_event s b]) ++ timer |}).
    { subst st1 timer.
      destruct (i + batchSize <? Z.of_nat (List.length allCompanyIds));
        unfold after_sleep; simpl; [reflexivity|now rewrite app_nil_r]. }
    destruct (H s) as (evs' & Htr & Hres).
    { rewrite Hst2. reflexivity. }
    rewrite Hst2 in Htr, Hres |- *. cbn [trace] in Htr, Hres |- *.
    assert (Htimer : existsb is_fetch timer = false)
      by (subst timer;
          now destruct (i + batchSize <? Z.of_nat (List.length allCompanyIds))).
    exists (fetch_event s b :: timer ++ evs'). split.
    + rewrite Htr, <- !app_assoc. reflexivity.
    + match type of Hres with
      | match ?x with _ => _ end => destruct x as [cs|e']
      end.
      * rewrite Hres. unfold fetch_event in *. cbn [fetched_records].
        rewrite Hout. cbn [ok_or_nil].
        rewrite fetched_records_app, (fetched_records_quiet _ timer)
          by assumption.
        unfold fetch_event. rewrite <- !app_assoc. reflexivity.
      * destruct Hres as (pre & b' & -> & Hb').
        exists (fetch_event s b :: timer ++ pre), b'.
        split; [cbn [app]; now rewrite app_assoc|].
        rewrite <- Hb'. f_equal. rewrite <- !app_assoc. reflexivity.
  - match goal with
    | Hd : fetchCompanyDetails _ _ _ = _ |- _ =>
        pose proof (fetchCompanyDetails_logged_in W _ _ s _ _ Hs Hd) as Hst1;
        pose proof (f_equal fst Hd) as Hout;
        rewrite (fetchCompanyDetails_outcome _ _ s Hs) in Hout;
        cbn [fst] in Hout
    end.
    exists [fetch_event s (JS.slice allCompanyIds i (i + batchSize))].
    cbn [fst snd]. subst st1. cbn [trace]. split; [reflexivity|].
    exists [], (JS.slice allCompanyIds i (i + batchSize)).
    rewrite app_nil_r. split; [reflexivity|exact Hout].
Qed.

End Replay.

(** ** Whole runs, replayed *)

(** The page count covers the target. *)
Lemma numPages_covers (maxCompanies z : Z) :
  0 < maxCompanies ->
  JS.ceil_div maxCompanies (Z.min maxCompanies 100) = Int z ->
  maxCompanies <= z * Z.min maxCompanies 100.
Proof.
  intros Hpos. unfold JS.ceil_div.
  destruct (Z.eqb_spec (Z.min maxCompanies 100) 0) as [H0|H0]; [lia|].
  intros Hz. inversion Hz; subst z. clear Hz.
  set (h := Z.min maxCompanies 100) in *.
  assert (Hh : 0 < h) by (unfold h; lia).
  pose proof (Z.div_mod (- maxCompanies) h H0) as Hdm.
  pose proof (Z.mod_pos_bound (- maxCompanies) h Hh) as Hmod.
  nia.
Qed.

Lemma numPages_is_Int (maxCompanies : Z) :
  0 < maxCompanies ->
  exists z, JS.ceil_div maxCompanies (Z.min maxCompanies 100) = Int z.
Proof.
  intros Hpos. unfold JS.ceil_div.
  destruct (Z.eqb_spec (Z.min maxCompanies 100) 0) as [H0|H0]; [lia|eauto].
Qed.

Lemma slice_nil {A : Type} (start end_ : Z) :
  JS.slice (@nil A) start end_ = [].
Proof. unfold JS.slice. now rewrite skipn_nil, firstn_nil. Qed.

Lemma discovery_events_no_fetch (evs : list Event) :
  forallb is_discovery_event evs = true -> existsb is_fetch evs = false.
Proof. apply existsb_excluded. now intros []. Qed.

Section Runs.

Variable W : World.

Lemma discovery_nonpositive (maxCompanies : Z) (st : State) :
  maxCompanies <= 0 -> discovery W maxCompanies st = (Ok [], st).
Proof.
  intros Hn. unfold discovery. rewrite discover_loop_step.
  unfold loop_cond. cbn [List.length].
  destruct (Z.ltb_spec (Z.of_nat 0) maxCompanies); [simpl in *; lia|].
  now rewrite andb_false_r.
Qed.

(** X6.  For every target that is zero or negative [extractData] returns
    the empty list and leaves the extractor as it found it: no request
    is sent and no timer is awaited. *)
Theorem extractData_nonpositive_target (maxCompanies : Z) (st : State) :
  maxCompanies <= 0 -> extractData W maxCompanies st = (Ok [], st).
Proof.
  intros Hn. rewrite extractData_phases, discovery_nonpositive by assumption.
  cbv zeta. now rewrite slice_nil.
Qed.

(** The discovery phase of a run, with what it collected. *)
Lemma discovery_result (maxCompanies : Z) (st : State) :
  exists k evs,
    trace (snd (discovery W maxCompanies st)) = trace st ++ evs
    /\ filter is_search evs = search_events (Z.min maxCompanies 100) 0 k
    /\ forallb is_discovery_event evs = true
    /\ (maxCompanies <= 0 -> k = 0%nat)
    /\ (0 < maxCompanies ->
        (Z.of_nat k - 1) * Z.min maxCompanies 100 < maxCompanies)
    /\ match fst (discovery W maxCompanies st) with
       | Ok all =>
           all = discovered W (trace st) evs
           /\ (full_pages W -> 0 < maxCompanies ->
               maxCompanies <= Z.of_nat (List.length all))
       | Throw e =>
           exists pre p,
             evs = pre ++ [EvSearch p (Z.min maxCompanies 100)]
             /\ search_outcome W (trace st ++ pre) p (Z.min maxCompanies 100)
                = Throw e
       end.
Proof.
  unfold discovery.
  destruct (discover_loop_result W maxCompanies (Z.min maxCompanies 100)
              (JS.ceil_div maxCompanies (Z.min maxCompanies 100))
              (numPages_finite maxCompanies) 0 [] st)
    as (k & evs & Htr & Hsearch & Hkind & Hk & Hres).
  exists k, evs.
  split; [exact Htr|]. split; [exact Hsearch|]. split; [exact Hkind|].
  split; [|split].
  - intros Hn. destruct k as [|k]; [reflexivity|exfalso].
    destruct Hk as [Hcond _]; [discriminate|].
    unfold loop_cond in Hcond. cbn [List.length] in Hcond.
    apply andb_prop in Hcond as [_ Hlt]. apply Z.ltb_lt in Hlt.
    simpl in Hlt. lia.
  - intros Hpos. destruct k as [|k]; [change (Z.of_nat 0) with 0; lia|].
    destruct Hk as [_ Hlast]; [discriminate|].
    destruct (numPages_is_Int _ Hpos) as [z Hz].
    pose proof (numPages_bound _ _ Hpos Hz) as Hbound.
    rewrite Hz in Hlast. cbn [JS.ltb] in Hlast. apply Z.ltb_lt in Hlast.
    nia.
  - match type of Hres with
    | match ?x with _ => _ end => destruct x as [all|e]
    end; [|exact Hres].
    destruct Hres as (Hall & Hexit & Hfull).
    split; [exact Hall|].
    intros Hfp Hpos.
    specialize (Hfull Hfp ltac:(lia)). cbn [List.length] in Hfull.
    destruct (numPages_is_Int _ Hpos) as [z Hz].
    pose proof (numPages_covers _ _ Hpos Hz) as Hcover.
    unfold loop_cond in Hexit. rewrite Hz in Hexit. cbn [JS.ltb] in Hexit.
    apply andb_false_elim in Hexit as [Hexit|Hexit];
      apply Z.ltb_ge in Hexit; [|exact Hexit].
    nia.
Qed.

(** The fetch phase of a run over a non-empty identifier list, when no
    fetch request was sent before it. *)
Lemma fetch_phase_result (ids : list Z) (st : State) :
  ids <> [] ->
  existsb is_fetch (trace st) = false ->
  exists evs,
    trace (snd (fetch_loop W ids 0 [] st)) = trace st ++ evs
    /\ existsb is_search evs = false
    /\ prefix_of (fetched_batches evs) (chunks 20 ids)
    /\ match fst (fetch_loop W ids 0 [] st) with
       | Ok cs =>
           fetched_batches evs = chunks 20 ids
           /\ cs = fetched_records W [] (trace st ++ evs)
       | Throw e =>
           (exists pre b tok ck,
               trace st ++ evs = pre ++ [EvFetch b tok ck]
               /\ fetch_outcome W pre b tok ck = Throw e)
           \/ (session st = None
               /\ session (snd (fetch_loop W ids 0 [] st)) = None
               /\ fetched_batches evs = []
               /\ (exists followups, evs = EvGetLoginPage :: followups)
               /\ exists cause, e = login_failed cause)
       end.
Proof.
  intros Hne Hquiet.
  assert (Hlogged : forall st0 s,
    session st0 = Some s ->
    existsb is_fetch (trace st0) = false ->
    forall evs1,
      trace (snd (fetch_loop W ids 0 [] st0)) = trace st0 ++ evs1 ->
      match fst (fetch_loop W ids 0 [] st0) with
      | Ok cs => cs = fetched_records W [] (trace st0 ++ evs1)
      | Throw e =>
          exists pre b tok ck,
            trace st0 ++ evs1 = pre ++ [EvFetch b tok ck]
            /\ fetch_outcome W pre b tok ck = Throw e
      end).
  { intros st0 s Hs Hq evs1 Htr1.
    destruct (fetch_loop_result W ids 0 [] st0 s Hs) as (evs2 & Htr2 & Hres).
    assert (evs2 = evs1) as -> by (rewrite Htr1 in Htr2; now apply app_inv_head in Htr2).
    destruct (fst (fetch_loop W ids 0 [] st0)) as [cs|e].
    - rewrite Hres, fetched_records_app.
      now rewrite (fetched_records_quiet W [] (trace st0)) by assumption.
    - destruct Hres as (pre & b & -> & Hb).
      exists (trace st0 ++ pre), b, (csrfToken s), (cookies s).
      split; [now rewrite app_assoc|exact Hb]. }
  destruct (fetch_phase W ids st Hne) as (lg & s & bs & Htr & Hpre & Hok & Hlog).
  exists (lg ++ fetch_events s bs).
  assert (Hlg : login_part lg).
  { destruct (session st).
    - destruct Hlog as (-> & _). now left.
    - destruct Hlog as (fu & -> & Hfu & _). right. eauto. }
  assert (Hbs : fetched_batches (lg ++ fetch_events s bs) = bs).
  { rewrite fetched_batches_app, fetched_batches_fetch_events.
    rewrite fetched_batches_none; [reflexivity|].
    apply (existsb_excluded _ is_login_event); [now intros []|].
    now apply login_part_kind. }
  split; [exact Htr|]. split; [|split; [now rewrite Hbs|]].
  { rewrite existsb_app.
    rewrite (existsb_excluded is_search is_login_event lg);
      [|now intros []|now apply login_part_kind].
    apply (existsb_excluded _ is_fetch_phase_event); [now intros []|].
    apply fetch_events_kind. }
  rewrite Hbs.
  destruct (session st) as [s0|] eqn:Hs.
  - specialize (Hlogged st s0 Hs Hquiet _ Htr).
    destruct (fst (fetch_loop W ids 0 [] st)) as [cs|e].
    + split; [apply Hok; eauto|exact Hlogged].
    + left. exact Hlogged.
  - destruct (login W st) as [[[]|e0] st_l] eqn:Hlogin.
    + destruct (login_effect W st _ _ Hlogin)
        as (fu & Htr_l & Hfu & [[_ [s' Hs_l]]|[[e' He'] _]]); [|discriminate].
      pose proof (fetch_loop_after_login W ids st st_l Hne Hs Hlogin) as Heq.
      assert (Hq_l : existsb is_fetch (trace st_l) = false).
      { rewrite Htr_l, existsb_app, Hquiet. cbn [existsb is_fetch orb].
        apply (existsb_excluded _ is_login_followup); [now intros []|exact Hfu]. }
      destruct (fetch_loop_result W ids 0 [] st_l s' Hs_l) as (evs2 & Htr2 & _).
      specialize (Hlogged st_l s' Hs_l Hq_l evs2 Htr2).
      rewrite <- Heq in Htr2, Hlogged.
      assert (Hsame : trace st_l ++ evs2 = trace st ++ lg ++ fetch_events s bs)
        by (rewrite <- Htr2; exact Htr).
      rewrite Hsame in Hlogged.
      destruct (fst (fetch_loop W ids 0 [] st)) as [cs|e].
      * split; [apply Hok; eauto|exact Hlogged].
      * left. exact Hlogged.
    + pose proof (fetch_loop_login_failed W ids st st_l e0 Hne Hs Hlogin) as Heq.
      destruct Hlog as (fu & -> & Hfu & [[Hbs' Hsess]|(-> & Hsess & _)]).
      { rewrite Heq in Hsess. cbn [snd] in Hsess.
        destruct (login_effect W st _ _ Hlogin)
          as (fu' & _ & _ & [[Hr _]|[_ Hs_l]]); [discriminate|congruence]. }
      rewrite Heq in *. cbn [fst snd] in *. right.
      split; [reflexivity|]. split; [exact Hsess|]. split; [reflexivity|].
      split; [now exists (fu ++ fetch_events s [])|].
      now apply login_error_wrapped in Hlogin.
Qed.

(** A run from a fresh trace: what it adds to its discovery phase, and
    how its outcome relates to the replies it received. *)
Lemma run_replayed (maxCompanies : Z) (s0 : option Session) :
  exists evs_d evs_f,
    trace (snd (discovery W maxCompanies (start s0))) = evs_d
    /\ trace (snd (extractData W maxCompanies (start s0))) = evs_d ++ evs_f
    /\ existsb is_search evs_f = false
    /\ match fst (discovery W maxCompanies (start s0)) with
       | Throw e =>
           fst (extractData W maxCompanies (start s0)) = Throw e
           /\ evs_f = []
       | Ok all =>
           prefix_of (fetched_batches evs_f)
             (chunks 20 (JS.slice all 0 maxCompanies))
           /\ match fst (extractData W maxCompanies (start s0)) with
              | Ok out =>
                  fetched_batches evs_f
                  = chunks 20 (JS.slice all 0 maxCompanies)
                  /\ out
                     = formatCompanyData
                         (fetched_records W [] (evs_d ++ evs_f))
              | Throw e =>
                  (exists pre b tok ck,
                      evs_d ++ evs_f = pre ++ [EvFetch b tok ck]
                      /\ fetch_outcome W pre b tok ck = Throw e)
                  \/ (s0 = None
                      /\ session (snd (extractData W maxCompanies (start s0)))
                         = None
                      /\ fetched_batches evs_f = []
                      /\ (exists followups,
                             evs_f = EvGetLoginPage :: followups)
                      /\ exists cause, e = login_failed cause)
              end
       end.
Proof.
  destruct (discovery_result maxCompanies (start s0))
    as (k & evs & Htr & _ & Hkind & _).
  cbn [start trace app] in Htr.
  pose proof (discovery_events_no_fetch _ Hkind) as Hquiet.
  rewrite extractData_phases.
  assert (Hsess : session (snd (discovery W maxCompanies (start s0))) = s0).
  { destruct (discovery_phase W maxCompanies (start s0)) as (? & ? & -> & _).
    reflexivity. }
  destruct (discovery W maxCompanies (start s0)) as [[all|e] st1];
    cbn [fst snd] in *.
  2:{ exists evs, []. rewrite app_nil_r. auto. }
  cbv zeta.
  destruct (Z.eqb_spec (Z.of_nat (List.length (JS.slice all 0 maxCompanies))) 0)
    as [Hempty|Hsome].
  - assert (Hnil : JS.slice all 0 maxCompanies = [])
      by (destruct (JS.slice all 0 maxCompanies); [reflexivity|simpl in *; lia]).
    exists evs, []. rewrite Hnil, app_nil_r. cbn [fst snd].
    repeat split; auto.
    + apply prefix_of_nil.
    + now rewrite fetched_records_quiet.
  - assert (Hne : JS.slice all 0 maxCompanies <> [])
      by (intros Hnil; rewrite Hnil in Hsome; simpl in Hsome; lia).
    assert (Hq1 : existsb is_fetch (trace st1) = false) by now rewrite Htr.
    destruct (fetch_phase_result _ st1 Hne Hq1)
      as (evs_f & Htr_f & Hsearch & Hpre & Hres).
    exists evs, evs_f. rewrite Htr in Htr_f, Hres.
    destruct (fetch_loop W (JS.slice all 0 maxCompanies) 0 [] st1)
      as [[cs|e] st2]; cbn [fst snd] in *.
    + destruct Hres as [Hall ->]. repeat split; auto.
    + repeat split; auto.
      destruct Hres as [Hres|(Hs & Hs2 & Hb & Hfu & Hcause)];
        [left; exact Hres|right].
      repeat split; auto. congruence.
Qed.

(** X7.  The discovery requests of a run are those for pages 0, 1, 2,
    ... in this order, all with page size [min(target, 100)]; there is
    none for a target of zero or less, and otherwise the pages before
    the last one requested cannot hold the target:
    [(k - 1) * pageSize < target]. *)
Theorem discovery_requests_are_consecutive_and_bounded (maxCompanies : Z)
    (s0 : option Session) :
  exists k,
    filter is_search (trace (snd (extractData W maxCompanies (start s0))))
    = search_events (Z.min maxCompanies 100) 0 k
    /\ (maxCompanies <= 0 -> k = 0%nat)
    /\ (0 < maxCompanies ->
        (Z.of_nat k - 1) * Z.min maxCompanies 100 < maxCompanies).
Proof.
  destruct (discovery_result maxCompanies (start s0))
    as (k & evs & Htr & Hsearch & _ & Hzero & Hbound & _).
  destruct (run_replayed maxCompanies s0) as (evs_d & evs_f & Hd & Hr & Hq & _).
  cbn [start trace app] in Htr. rewrite Htr in Hd. subst evs_d.
  exists k. rewrite Hr, filter_app, Hsearch, (filter_none _ _ Hq), app_nil_r.
  auto.
Qed.




(** X11.  When every discovery reply carries exactly the number of hits
    asked for and the run completes, the run sends exactly [target]
    identifiers to the fetch endpoint: the pages requested always
    suffice. *)
Theorem full_pages_give_exactly_the_target (maxCompanies : Z)
    (s0 : option Session) :
  full_pages W ->
  0 <= maxCompanies ->
  (exists out, fst (extractData W maxCompanies (start s0)) = Ok out) ->
  Z.of_nat
    (List.length
       (List.concat
          (fetched_batches
             (trace (snd (extractData W maxCompanies (start s0)))))))
  = maxCompanies.
Proof.
  intros Hfull Hn [out Hok].
  destruct (discovery_result maxCompanies (start s0))
    as (k & evs & Htr & _ & Hkind & _ & _ & Hres).
  destruct (run_replayed maxCompanies s0)
    as (evs_d & evs_f & Hd & Hr & Hq & Hrun).
  cbn [start trace app] in Htr, Hres. rewrite Htr in Hd. subst evs_d.
  rewrite Hr, fetched_batches_app.
  rewrite (fetched_batches_none evs) by (auto using discovery_events_no_fetch).
  cbn [app].
  destruct (fst (discovery W maxCompanies (start s0))) as [all|e0].
  2:{ destruct Hrun as [Hthrow _]. congruence. }
  destruct Hres as [_ Hlen]. destruct Hrun as [_ Hout].
  rewrite Hok in Hout. destruct Hout as [-> _].
  rewrite (concat_chunks 19), slice_truncate, length_firstn by assumption.
  destruct (Z.eq_dec maxCompanies 0) as [->|Hpos]; [simpl; lia|].
  specialize (Hlen Hfull ltac:(lia)). lia.
Qed.

End Runs.

(** ** A run that starts with a session *)

Section Requests.

Variable W : World.

(** X14.  An extractor that holds a session keeps it through a whole
    run, whatever happened before: the run sends no request of [login]
    and ends with the same session. *)
Theorem run_with_a_session_never_logs_in (maxCompanies : Z) (st : State)
    (s : Session) :
  session st = Some s ->
  exists evs,
    trace (snd (extractData W maxCompanies st)) = trace st ++ evs
    /\ existsb is_login_event evs = false
    /\ session (snd (extractData W maxCompanies st)) = Some s.
Proof.
  intros Hs.
  destruct (discovery_phase W maxCompanies st)
    as (k & tail & Hst & Htail & _).
  destruct (run_fetch_shape W maxCompanies st) as (lg & s' & bs & Htr & _ & Hlog).
  rewrite Hst in Htr, Hlog. cbn [snd trace session] in Htr, Hlog.
  rewrite Hs in Hlog. destruct Hlog as (-> & _ & Hfinal).
  exists (discovery_events (Z.min maxCompanies 100) k tail ++ fetch_events s' bs).
  split; [now rewrite Htr, <- app_assoc|]. split; [|exact Hfinal].
  rewrite existsb_app.
  rewrite (existsb_excluded is_login_event is_discovery_event);
    [|now intros []|now apply discovery_events_kind].
  apply (existsb_excluded _ is_fetch_phase_event); [now intros []|].
  apply fetch_events_kind.
Qed.

End Requests.

(** ** Scenarios for the further properties *)

Lemma honest_full_pages : full_pages Scenario.honest.
Proof.
  intros st page h ids st' Hh.
  unfold fetchCompanyIds, try_catch, axios_request, emit, ret, throw.
  unfold bind. cbv beta iota. cbn [trace session Scenario.honest
    Scenario.servers algolia_reply].
  rewrite last_last. cbn.
  intros H. inversion H; subst. rewrite length_map, length_map, zseq_length.
  lia.
Qed.

Lemma extractData_nonpositive_witness :
  extractData Scenario.honest (-3) initial = (Ok [], initial).
Proof.
  apply (extractData_nonpositive_target Scenario.honest (-3) initial). lia.
Defined.



Lemma full_pages_witness :
  Z.of_nat
    (List.length
       (List.concat
          (fetched_batches
             (trace (snd (extractData Scenario.honest 45 (start None)))))))
  = 45.
Proof.
  apply (full_pages_give_exactly_the_target Scenario.honest 45 None).
  - exact honest_full_pages.
  - lia.
  - eexists. vm_compute. reflexivity.
Defined.

Lemma session_kept_witness :
  exists evs,
    trace (snd (extractData Scenario.honest 45
                  (snd (extractData Scenario.honest 3 (start None)))))
    = trace (snd (extractData Scenario.honest 3 (start None))) ++ evs
    /\ existsb is_login_event evs = false
    /\ session (snd (extractData Scenario.honest 45
                       (snd (extractData Scenario.honest 3 (start None)))))
       = Some {| cookies := "sid=1; auth=2"; csrfToken := "portal" |}.
Proof.
  apply (run_with_a_session_never_logs_in Scenario.honest 45
           (snd (extractData Scenario.honest 3 (start None)))).
  vm_compute. reflexivity.
Defined.

